(** * Logestic: a shallow embedding of [src/index.ts] and [src/utils.ts]

    The development follows the two source files of the library:
    - the JavaScript values the code manipulates (strings as sequences of
      UTF-16 code units, numbers, [Headers], the [Number] coercion);
    - [utils.ts]: [buildAttrs], [colourLogType], [removeAnsi];
    - [index.ts]: the [Logestic] class (constructor, [setDest], [use],
      the three hooks installed by [format], [log], [info], [warn],
      [debug], [error]).

    Side effects are modelled as the list of write events a call issues;
    the two clocks the code reads ([process.hrtime.bigint()], [new Date()])
    are oracles threaded through [buildAttrs]. *)

From stdpp Require Import base tactics option list gmap countable.
From Stdlib Require Import ZArith NArith Ascii String Lia.

Open Scope N_scope.

(** ** JavaScript strings *)

(** A JavaScript string is a sequence of UTF-16 code units. *)
Abbreviation jsstring := (list N).

(** ASCII literals. *)
Definition str (s : string) : jsstring :=
  map N_of_ascii (list_ascii_of_string s).

Definition ESC : N := 27.
Definition LF : N := 10.

(** [!s] for a string [s]: only the empty string is falsy. *)
Definition str_falsy (s : jsstring) : bool :=
  match s with [] => true | _ => false end.

(** [a || b] where [a] is [string | null]. *)
Definition str_or (a : option jsstring) (b : jsstring) : jsstring :=
  match a with
  | Some s => if str_falsy s then b else s
  | None => b
  end.

(** [a || b] where [a] is an optional boolean. *)
Definition bool_or (a : option bool) (b : bool) : bool :=
  match a with
  | Some true => true
  | _ => b
  end.

(** ECMAScript [WhiteSpace] and [LineTerminator] code points: the set
    stripped by [trimStart] and by the [Number] coercion. *)
Definition isWhiteSpace (c : N) : bool :=
  (c =? 9) || (c =? 10) || (c =? 11) || (c =? 12) || (c =? 13) ||
  (c =? 32) || (c =? 160) || (c =? 5760) ||
  ((8192 <=? c) && (c <=? 8202)) ||
  (c =? 8232) || (c =? 8233) || (c =? 8239) || (c =? 8287) ||
  (c =? 12288) || (c =? 65279).

(** The regular-expression class [\d]. *)
Definition isDigit (c : N) : bool := (48 <=? c) && (c <=? 57).

Fixpoint takeWhile (p : N -> bool) (l : jsstring) : jsstring :=
  match l with
  | c :: r => if p c then c :: takeWhile p r else []
  | [] => []
  end.

Fixpoint dropWhile (p : N -> bool) (l : jsstring) : jsstring :=
  match l with
  | c :: r => if p c then dropWhile p r else l
  | [] => []
  end.

(** [String.prototype.trimStart]. *)
Definition trimStart (s : jsstring) : jsstring := dropWhile isWhiteSpace s.

(** [String.prototype.trimEnd] and [trim]. *)
Definition trimEnd (s : jsstring) : jsstring :=
  rev (dropWhile isWhiteSpace (rev s)).

Definition trim (s : jsstring) : jsstring := trimEnd (trimStart s).

(** [String.prototype.toUpperCase] on the ASCII letters; the code applies
    it to the five log-type names only. *)
Definition toUpperCase (s : jsstring) : jsstring :=
  map (fun c => if (97 <=? c) && (c <=? 122) then c - 32 else c) s.

(** ** [utils.ts]: [removeAnsi] *)

(** Length of a match of [/\u001b\[\d*m/] anchored at the head of [l]:
    ESC, an opening bracket, a greedy run of digits, the letter m. *)
Definition matchAnsi (l : jsstring) : option nat :=
  match l with
  | c0 :: c1 :: r =>
      if (c0 =? ESC) && (c1 =? 91) then
        match dropWhile isDigit r with
        | c :: _ =>
            if c =? 109 then Some (3 + List.length (takeWhile isDigit r))%nat
            else None
        | [] => None
        end
      else None
  | _ => None
  end.

(** [text.replace(/\u001b\[\d*m/g, "")]: one left-to-right pass; at each
    position either a match starts there and its code units are dropped
    ([skip] counts those still to drop), or the code unit is kept and the
    search resumes one position further. *)
Fixpoint replaceAnsi (skip : nat) (l : jsstring) : jsstring :=
  match l with
  | [] => []
  | c :: r =>
      match skip with
      | S k => replaceAnsi k r
      | O =>
          match matchAnsi l with
          | Some n => replaceAnsi (pred n) r
          | None => c :: replaceAnsi O r
          end
      end
  end.

Definition removeAnsi (text : jsstring) : jsstring :=
  trimStart (replaceAnsi O text).

(** ** [utils.ts]: [colourLogType] *)

Inductive LogType := http | info_t | warn_t | debug_t | error_t.

Definition LogType_name (t : LogType) : jsstring :=
  match t with
  | http => str "http"
  | info_t => str "info"
  | warn_t => str "warn"
  | debug_t => str "debug"
  | error_t => str "error"
  end.

(** [LogLevelColour]: an optional colour string per log type. *)
Definition LogLevelColour := LogType -> option jsstring.

Definition noColours : LogLevelColour := fun _ => None.

(** The part of the chalk library the code calls: the five background
    styles and [chalk.hex(colour)], each a function on strings. *)
Record Chalk := {
  bgBlue : jsstring -> jsstring;
  bgGreen : jsstring -> jsstring;
  bgYellow : jsstring -> jsstring;
  bgCyan : jsstring -> jsstring;
  bgRed : jsstring -> jsstring;
  hex : jsstring -> jsstring -> jsstring
}.

(** chalk at colour level 0 (no colour support): every style returns its
    argument unchanged. *)
Definition chalkLevel0 : Chalk :=
  {| bgBlue := fun s => s; bgGreen := fun s => s; bgYellow := fun s => s;
     bgCyan := fun s => s; bgRed := fun s => s; hex := fun _ s => s |}.

Definition colourLogType (chalk : Chalk) (type : LogType)
    (colourDef : LogLevelColour) : jsstring :=
  let default :=
    match type with
    | http => bgBlue chalk
    | info_t => bgGreen chalk
    | warn_t => bgYellow chalk
    | debug_t => bgCyan chalk
    | error_t => bgRed chalk
    end in
  let bgColour :=
    match colourDef type with
    | Some colour => if str_falsy colour then default else hex chalk colour
    | None => default
    end in
  let withSpaces := str " " ++ toUpperCase (LogType_name type) ++ str " " in
  bgColour withSpaces.

(** ** JavaScript numbers and the [Number] coercion *)

(** A number (a double) is given by its exact value,
    [(-1)^negative * digits * 10^exponent]; the same type holds the
    mathematical value of a literal before [RoundMVResult] rounds it to a
    double. *)
Inductive number :=
  | NaN
  | Infinity (negative : bool)
  | Decimal (negative : bool) (digits : N) (exponent : Z).

Definition zero : number := Decimal false 0 0.

(** [!n] for a number [n]: zero and [NaN] are falsy. *)
Definition number_falsy (n : number) : bool :=
  match n with
  | NaN => true
  | Infinity _ => false
  | Decimal _ d _ => d =? 0
  end.

Fixpoint str_eqb (a b : jsstring) : bool :=
  match a, b with
  | [], [] => true
  | x :: a', y :: b' => (x =? y) && str_eqb a' b'
  | _, _ => false
  end.

Definition isBinaryDigit (c : N) : bool := (c =? 48) || (c =? 49).
Definition isOctalDigit (c : N) : bool := (48 <=? c) && (c <=? 55).
Definition isHexDigit (c : N) : bool :=
  isDigit c || ((97 <=? c) && (c <=? 102)) || ((65 <=? c) && (c <=? 70)).

Definition digitVal (c : N) : N :=
  if isDigit c then c - 48 else if 97 <=? c then c - 87 else c - 55.

(** Value of a run of digits in the given radix. *)
Definition digitsVal (radix : N) (ds : jsstring) : N :=
  fold_left (fun acc c => radix * acc + digitVal c) ds 0.

(** A non-empty run of characters of one class. *)
Definition run (p : N -> bool) (ds : jsstring) : bool :=
  negb (str_falsy ds) && forallb p ds.

(** [NonDecimalIntegerLiteral]: 0b, 0o or 0x and at least one digit. *)
Definition parseNonDecimal (l : jsstring) : option N :=
  match l with
  | z :: x :: ds =>
      if negb (z =? 48) then None
      else if ((x =? 98) || (x =? 66)) && run isBinaryDigit ds
      then Some (digitsVal 2 ds)
      else if ((x =? 111) || (x =? 79)) && run isOctalDigit ds
      then Some (digitsVal 8 ds)
      else if ((x =? 120) || (x =? 88)) && run isHexDigit ds
      then Some (digitsVal 16 ds)
      else None
  | _ => None
  end.

(** [SignedInteger]: an optional sign and at least one digit. *)
Definition parseSignedInteger (l : jsstring) : option Z :=
  match l with
  | c :: r =>
      if c =? 43 then
        if run isDigit r then Some (Z.of_N (digitsVal 10 r)) else None
      else if c =? 45 then
        if run isDigit r then Some (- Z.of_N (digitsVal 10 r))%Z else None
      else
        if run isDigit l then Some (Z.of_N (digitsVal 10 l)) else None
  | [] => None
  end.

(** What follows the mantissa: nothing, or e/E and a [SignedInteger]. *)
Definition parseExponentOpt (l : jsstring) : option Z :=
  match l with
  | [] => Some 0%Z
  | c :: r => if (c =? 101) || (c =? 69) then parseSignedInteger r else None
  end.

(** [StrUnsignedDecimalLiteral]. *)
Definition parseStrUnsignedDecimal (neg : bool) (l : jsstring)
    : option number :=
  if str_eqb l (str "Infinity") then Some (Infinity neg)
  else
    let ds := takeWhile isDigit l in
    match dropWhile isDigit l with
    | c :: r =>
        if c =? 46 then
          let fs := takeWhile isDigit r in
          if str_falsy ds && str_falsy fs then None
          else
            match parseExponentOpt (dropWhile isDigit r) with
            | Some e =>
                Some (Decimal neg (digitsVal 10 (ds ++ fs))
                        (e - Z.of_nat (List.length fs)))
            | None => None
            end
        else if str_falsy ds then None
        else
          match parseExponentOpt (c :: r) with
          | Some e => Some (Decimal neg (digitsVal 10 ds) e)
          | None => None
          end
    | [] => if str_falsy ds then None else Some (Decimal neg (digitsVal 10 ds) 0)
    end.

(** [StrDecimalLiteral]: an optional sign before the unsigned literal. *)
Definition parseStrDecimal (l : jsstring) : option number :=
  match l with
  | c :: r =>
      if c =? 43 then parseStrUnsignedDecimal false r
      else if c =? 45 then parseStrUnsignedDecimal true r
      else parseStrUnsignedDecimal false l
  | [] => None
  end.

(** The mathematical value of a string: white space is trimmed on both
    sides; the empty string is 0; anything that is not a numeric literal
    is [NaN]. *)
Definition StringToMV (s : jsstring) : number :=
  let t := trim s in
  if str_falsy t then zero
  else
    match parseNonDecimal t with
    | Some n => Decimal false n 0
    | None =>
        match parseStrDecimal t with
        | Some v => v
        | None => NaN
        end
    end.

(** [n / d] rounded to the nearest integer, ties to the even one
    ([d] positive). *)
Definition roundHalfEven (n d : Z) : Z :=
  let q := (n / d)%Z in
  let r := (n mod d)%Z in
  if (2 * r <? d)%Z then q
  else if (d <? 2 * r)%Z then (q + 1)%Z
  else if Z.even q then q else (q + 1)%Z.

(** The integer part of the binary logarithm of [n / d] ([n], [d]
    positive). *)
Definition floorLog2 (n d : Z) : Z :=
  let g := (Z.log2 n - Z.log2 d)%Z in
  if (0 <=? g)%Z
  then (if (d * 2 ^ g <=? n)%Z then g else g - 1)%Z
  else (if (d <=? n * 2 ^ (- g))%Z then g else g - 1)%Z.

(** [d * 10^(-j)] without the trailing zeros of its fraction. *)
Fixpoint stripZeros (j : nat) (d : Z) : Z * Z :=
  match j with
  | O => (d, 0%Z)
  | S j' =>
      if (d mod 10 =? 0)%Z then stripZeros j' (d / 10)%Z
      else (d, (- Z.of_nat j)%Z)
  end.

(** [RoundMVResult]: the double nearest to a mathematical value, ties to
    the even significand.  The value is written [m * 2^k] with [m] below
    [2^53] and [k] at least -1074 (the subnormal range); a result of
    [2^1024] or more is an infinity, and the sign of a zero is kept. *)
Definition RoundMVResult (v : number) : number :=
  match v with
  | Decimal neg digits e =>
      let d := Z.of_N digits in
      if (d =? 0)%Z then Decimal neg 0 0
      else
        let num := if (0 <=? e)%Z then (d * 10 ^ e)%Z else d in
        let den := if (0 <=? e)%Z then 1%Z else (10 ^ (- e))%Z in
        let k := Z.max (floorLog2 num den - 52) (-1074) in
        let m :=
          if (0 <=? k)%Z then roundHalfEven num (den * 2 ^ k)
          else roundHalfEven (num * 2 ^ (- k)) den in
        if (m =? 0)%Z then Decimal neg 0 0
        else if (0 <=? k)%Z then
          if (2 ^ 1024 <=? m * 2 ^ k)%Z then Infinity neg
          else Decimal neg (Z.to_N (m * 2 ^ k)) 0
        else
          let r := stripZeros (Z.to_nat (- k)) (m * 5 ^ (- k)) in
          Decimal neg (Z.to_N (fst r)) (snd r)
  | _ => v
  end.

(** [StringToNumber]: the mathematical value of the string, rounded. *)
Definition StringToNumber (s : jsstring) : number :=
  RoundMVResult (StringToMV s).

(** [Number(v)] for [v : string | null]; [null] converts to 0. *)
Definition Number (v : option jsstring) : number :=
  match v with
  | None => zero
  | Some s => StringToNumber s
  end.

(** *** The grammar of numeric strings

    The productions of [StringNumericLiteral] in the language
    specification, against which [StringToMV] is checked below. *)

Definition StrWhiteSpace (ws : jsstring) : Prop :=
  forallb isWhiteSpace ws = true.

Definition Digits (p : N -> bool) (ds : jsstring) : Prop :=
  ds <> [] /\ forallb p ds = true.

Inductive Sign : jsstring -> Prop :=
  | Sign_none : Sign []
  | Sign_plus : Sign [43]
  | Sign_minus : Sign [45].

Inductive ExponentPartOpt : jsstring -> Prop :=
  | Exponent_none : ExponentPartOpt []
  | Exponent_some ind sign ds :
      ind = 101 \/ ind = 69 -> Sign sign -> Digits isDigit ds ->
      ExponentPartOpt (ind :: sign ++ ds).

Inductive StrUnsignedDecimalLiteral : jsstring -> Prop :=
  | Unsigned_Infinity : StrUnsignedDecimalLiteral (str "Infinity")
  | Unsigned_int_dot ds fs ex :
      Digits isDigit ds -> forallb isDigit fs = true -> ExponentPartOpt ex ->
      StrUnsignedDecimalLiteral (ds ++ 46 :: fs ++ ex)
  | Unsigned_dot fs ex :
      Digits isDigit fs -> ExponentPartOpt ex ->
      StrUnsignedDecimalLiteral (46 :: fs ++ ex)
  | Unsigned_int ds ex :
      Digits isDigit ds -> ExponentPartOpt ex ->
      StrUnsignedDecimalLiteral (ds ++ ex).

Inductive NonDecimalIntegerLiteral : jsstring -> Prop :=
  | Binary_literal x ds :
      x = 98 \/ x = 66 -> Digits isBinaryDigit ds ->
      NonDecimalIntegerLiteral (48 :: x :: ds)
  | Octal_literal x ds :
      x = 111 \/ x = 79 -> Digits isOctalDigit ds ->
      NonDecimalIntegerLiteral (48 :: x :: ds)
  | Hex_literal x ds :
      x = 120 \/ x = 88 -> Digits isHexDigit ds ->
      NonDecimalIntegerLiteral (48 :: x :: ds).

Inductive StrNumericLiteral : jsstring -> Prop :=
  | Numeric_decimal sign u :
      Sign sign -> StrUnsignedDecimalLiteral u ->
      StrNumericLiteral (sign ++ u)
  | Numeric_non_decimal l :
      NonDecimalIntegerLiteral l -> StrNumericLiteral l.

Inductive StringNumericLiteral : jsstring -> Prop :=
  | Literal_blank ws : StrWhiteSpace ws -> StringNumericLiteral ws
  | Literal_some ws1 l ws2 :
      StrWhiteSpace ws1 -> StrNumericLiteral l -> StrWhiteSpace ws2 ->
      StringNumericLiteral (ws1 ++ l ++ ws2).

(** ** The request context *)

(** A [Headers] object as its header list, in order. *)
Definition Headers := list (jsstring * jsstring).

Definition toLowerCase (s : jsstring) : jsstring :=
  map (fun c => if (65 <=? c) && (c <=? 90) then c + 32 else c) s.

(** [headers.get(name)]: [null] when no header matches [name] (names
    compare case-insensitively), otherwise the values of all matching
    headers joined with a comma and a space. *)
Definition Headers_get (h : Headers) (name : jsstring) : option jsstring :=
  match
    List.filter (fun p => str_eqb (toLowerCase (fst p)) (toLowerCase name)) h
  with
  | [] => None
  | p :: ps =>
      Some (fold_left (fun acc q => acc ++ str ", " ++ snd q) ps (snd p))
  end.

Record Request := {
  method : jsstring;
  headers : Headers
}.

(** [request.headers.get(name)] for a literal [name]. *)
Definition header (req : Request) (name : string) : option jsstring :=
  Headers_get (headers req) (str name).

(** The values stored in an attribute set. *)
Inductive value :=
  | Undefined
  | Str (s : jsstring)
  | Num (n : number)
  | BigInt (z : Z)
  | Date (ms : Z)
  | Obj (ref : nat).

(** [set.status]: unset, a number, or the name of a status. *)
Inductive StatusField :=
  | status_unset
  | status_number (n : number)
  | status_name (s : jsstring).

(** [!set.status]. *)
Definition status_falsy (s : StatusField) : bool :=
  match s with
  | status_unset => true
  | status_number n => number_falsy n
  | status_name s => str_falsy s
  end.

Record Context := {
  request : Request;
  path : jsstring;
  body : value;
  query : value;
  set_status : StatusField
}.

(** The two clocks read by the code: the [n]-th reading of
    [process.hrtime.bigint()] (nanoseconds) and of [new Date()]
    (milliseconds) made during a call. *)
Record Clock := {
  hrtime : nat -> Z;
  dateNow : nat -> Z
}.

(** ** [utils.ts]: [buildAttrs] *)

Module Key.
(** The keys of [Attribute]. *)
Inductive t :=
  | ip | method | path | body | query | time | contentLength | status
  | referer | userAgent | duration.

Definition all : list t :=
  [ip; method; path; body; query; time; contentLength; status;
   referer; userAgent; duration].

Definition to_nat (k : t) : nat :=
  match k with
  | ip => 0 | method => 1 | path => 2 | body => 3 | query => 4
  | time => 5 | contentLength => 6 | status => 7 | referer => 8
  | userAgent => 9 | duration => 10
  end.

Definition of_nat (n : nat) : option t := nth_error all n.

#[global] Instance eq_dec : EqDecision t.
Proof. solve_decision. Defined.

#[global] Instance countable : Countable t.
Proof.
  apply (inj_countable to_nat of_nat). intros []; reflexivity.
Defined.
End Key.

(** An attribute set: a JavaScript object, i.e. a finite map from keys to
    values. *)
Abbreviation Attrs := (gmap Key.t value).

(** The state of the loop of [buildAttrs]: the object under construction
    and how many times each clock has been read. *)
Record BuildState := {
  attrs : Attrs;
  hrReads : nat;
  dateReads : nat
}.

Section BuildAttrs.

(** Elysia's [StatusMap], read as [StatusMap[name]]: the code of a status
    name, [undefined] for a name the object does not have, an inherited
    member for a name such as constructor. *)
Variable StatusMap : jsstring -> value.

Variable clock : Clock.

Definition assign (st : BuildState) (k : Key.t) (v : value) : BuildState :=
  {| attrs := <[k := v]> (attrs st);
     hrReads := hrReads st; dateReads := dateReads st |}.

(** One iteration of the [for] loop: the [switch] on the key. *)
Definition buildStep (ctx : Context) (timeStart : Z)
    (st : BuildState) (k : Key.t) : BuildState :=
  let req := request ctx in
  match k with
  | Key.ip =>
      assign st Key.ip (Str (str_or (header req "x-forwarded-for") (str "<ip?>")))
  | Key.method => assign st Key.method (Str (method (request ctx)))
  | Key.path => assign st Key.path (Str (path ctx))
  | Key.body => assign st Key.body (body ctx)
  | Key.query => assign st Key.query (query ctx)
  | Key.time =>
      {| attrs := <[Key.time := Date (dateNow clock (dateReads st))]> (attrs st);
         hrReads := hrReads st; dateReads := S (dateReads st) |}
  | Key.contentLength =>
      assign st Key.contentLength (Num (Number (header req "content-length")))
  | Key.status =>
      if status_falsy (set_status ctx) then st
      else
        assign st Key.status
          match set_status ctx with
          | status_number n => Num n
          | status_name s => StatusMap s
          | status_unset => Undefined
          end
  | Key.referer =>
      assign st Key.referer (Str (str_or (header req "referer") (str "<referer?>")))
  | Key.userAgent =>
      assign st Key.userAgent
        (Str (str_or (header req "user-agent") (str "<user-agent?>")))
  | Key.duration =>
      let now := hrtime clock (hrReads st) in
      {| attrs := <[Key.duration := BigInt ((now - timeStart) ÷ 1000)]> (attrs st);
         hrReads := S (hrReads st); dateReads := dateReads st |}
  end.

Definition buildLoop (ctx : Context) (reqAttrs : list Key.t)
    (timeStart : Z) (st : BuildState) : BuildState :=
  fold_left (buildStep ctx timeStart) reqAttrs st.

Definition buildAttrs (ctx : Context) (reqAttrs : list Key.t)
    (timeStart : Z) : Attrs :=
  attrs (buildLoop ctx reqAttrs timeStart
           {| attrs := ∅; hrReads := 0; dateReads := 0 |}).

End BuildAttrs.

(** ** [index.ts]: the [Logestic] class *)

(** A [BunFile] handle: the identity of the object (what [===] compares)
    and its [name], which is undefined for a handle on a descriptor. *)
Record BunFile := {
  ref : nat;
  name : option jsstring
}.

Definition Bun_stdin : BunFile := {| ref := 0; name := None |}.
Definition Bun_stdout : BunFile := {| ref := 1; name := None |}.
Definition Bun_stderr : BunFile := {| ref := 2; name := None |}.

(** [a === b] on handles. *)
Definition same (a b : BunFile) : bool := Nat.eqb (ref a) (ref b).

Module LogesticOptions.
(** Every option may be left out. *)
Record t := {
  dest : option BunFile;
  showLevel : option bool;
  logLevelColour : option LogLevelColour;
  httpLogging : option bool;
  explicitLogging : option bool
}.

(** The default argument [{}]. *)
Definition empty : t :=
  {| dest := None; showLevel := None; logLevelColour := None;
     httpLogging := None; explicitLogging := None |}.
End LogesticOptions.

Inductive Error :=
  | CannotLogToStdin
  | TypeError.

(** The writes a call issues. *)
Inductive Effect :=
  | BunWrite (file : BunFile) (data : jsstring)
  | AppendFile (path : jsstring) (data : jsstring).

(** The fate of the promise returned by [log]. *)
Inductive Outcome :=
  | Resolved (effects : list Effect)
  | Rejected (e : Error).

(** The private fields of an instance; [dest] is undefined until it is
    assigned. *)
Record Logestic := {
  requestedAttrs : list Key.t;
  dest : option BunFile;
  showLevel : bool;
  logLevelColour : LogLevelColour;
  httpLogging : bool;
  explicitLogging : bool
}.

Definition with_dest (self : Logestic) (d : BunFile) : Logestic :=
  {| requestedAttrs := requestedAttrs self; dest := Some d;
     showLevel := showLevel self; logLevelColour := logLevelColour self;
     httpLogging := httpLogging self;
     explicitLogging := explicitLogging self |}.

(** The result of [new Logestic(options)]: an exception, or the instance
    together with the custom file whose [createFileIfNotExists] promise
    is still pending, if any. *)
Inductive Constructed :=
  | Threw (e : Error)
  | Created (self : Logestic) (pending : option BunFile).

(** [setDest]: standard input is refused, the two output streams are
    assigned at once, any other file is assigned when its promise
    settles. *)
Definition setDest (self : Logestic) (d : BunFile) : Constructed :=
  if same d Bun_stdin then Threw CannotLogToStdin
  else if same d Bun_stdout || same d Bun_stderr
  then Created (with_dest self d) None
  else Created self (Some d).

Definition constructor (options : LogesticOptions.t) : Constructed :=
  let self :=
    {| requestedAttrs := [];
       dest := None;
       showLevel := bool_or (LogesticOptions.showLevel options) false;
       logLevelColour :=
         default noColours (LogesticOptions.logLevelColour options);
       httpLogging := bool_or (LogesticOptions.httpLogging options) true;
       explicitLogging :=
         bool_or (LogesticOptions.explicitLogging options) true |} in
  setDest self (default Bun_stdout (LogesticOptions.dest options)).

(** The pending promise settles: [createFileIfNotExists] writes the empty
    string to the file when it does not exist, then [dest] is assigned. *)
Definition settle (fileExists : bool) (self : Logestic) (file : BunFile)
    : Logestic * list Effect :=
  (with_dest self file, if fileExists then [] else [BunWrite file []]).

(** [use(attrs)] with an array; a single key is [use self [attr]]. *)
Definition use (self : Logestic) (attrs : list Key.t) : Logestic :=
  {| requestedAttrs := requestedAttrs self ++ attrs; dest := dest self;
     showLevel := showLevel self; logLevelColour := logLevelColour self;
     httpLogging := httpLogging self;
     explicitLogging := explicitLogging self |}.

(** [log]: the empty string is ignored; reading [this.dest.name] while
    [dest] is still undefined throws, which rejects the promise; a handle
    without a name is written to directly, a named file is appended to
    after [removeAnsi]. *)
Definition log (self : Logestic) (msg : jsstring) : Outcome :=
  if str_falsy msg then Resolved []
  else
    let msgNewLine := msg ++ [LF] in
    match dest self with
    | None => Rejected TypeError
    | Some d =>
        match name d with
        | None => Resolved [BunWrite d msgNewLine]
        | Some path =>
            if str_falsy path then Resolved [BunWrite d msgNewLine]
            else Resolved [AppendFile path (removeAnsi msgNewLine)]
        end
    end.

Module Failure.
(** The argument of the [onFailure] callback. *)
Record t := {
  request : Request;
  error : value;
  code : value;
  datetime : Z
}.
End Failure.

(** [Callback]: the formatting functions handed to [format]. *)
Record Callback := {
  onRequest : option (Request -> jsstring);
  onSuccess : Attrs -> jsstring;
  onFailure : Failure.t -> jsstring
}.

Section Class.

Variable chalk : Chalk.
Variable StatusMap : jsstring -> value.

(** The template [`${colourLogType(type, this.logLevelColour)} ${msg}`]. *)
Definition withLevel (self : Logestic) (type : LogType) (msg : jsstring)
    : jsstring :=
  colourLogType chalk type (logLevelColour self) ++ str " " ++ msg.

Definition info (self : Logestic) (msg : jsstring) : Outcome :=
  if negb (explicitLogging self) then Resolved []
  else
    let _msg := if showLevel self then withLevel self info_t msg else msg in
    log self _msg.

Definition warn (self : Logestic) (msg : jsstring) : Outcome :=
  if negb (explicitLogging self) then Resolved []
  else
    let _msg := if showLevel self then withLevel self warn_t msg else msg in
    log self _msg.

Definition debug (self : Logestic) (msg : jsstring) : Outcome :=
  if negb (explicitLogging self) then Resolved []
  else
    let _msg := if showLevel self then withLevel self debug_t msg else msg in
    log self _msg.

Definition error (self : Logestic) (msg : jsstring) : Outcome :=
  if negb (explicitLogging self) then Resolved []
  else
    let _msg := if showLevel self then withLevel self error_t msg else msg in
    log self _msg.

(** The three hooks [format] registers.  Each reads the fields of the
    instance when it runs, so it takes the instance as it is then. *)

(** [onRequest]: returns the new [store.logestic_timeStart]. *)
Definition format_onRequest (formatAttr : Callback) (self : Logestic)
    (clock : Clock) (req : Request) : Z * Outcome :=
  (hrtime clock 0,
   match onRequest formatAttr with
   | Some f =>
       let msg := f req in
       log self (if showLevel self then withLevel self http msg else msg)
   | None => Resolved []
   end).

Definition format_onAfterResponse (formatAttr : Callback) (self : Logestic)
    (clock : Clock) (ctx : Context) (logestic_timeStart : Z) : Outcome :=
  if negb (httpLogging self) then Resolved []
  else
    let attrs :=
      buildAttrs StatusMap clock ctx (requestedAttrs self)
        logestic_timeStart in
    let msg := onSuccess formatAttr attrs in
    log self (if showLevel self then withLevel self http msg else msg).

Definition format_onError (formatAttr : Callback) (self : Logestic)
    (clock : Clock) (req : Request) (err code : value) : Outcome :=
  let datetime := dateNow clock 0 in
  let msg :=
    onFailure formatAttr
      {| Failure.request := req; Failure.error := err;
         Failure.code := code; Failure.datetime := datetime |} in
  log self (if showLevel self then withLevel self error_t msg else msg).

End Class.

(** ** Notions used in the statements *)

(** A header that [headers.get] reports as absent or as the empty
    string. *)
Definition missing (v : option jsstring) : Prop := v = None \/ v = Some [].

(** The header read for a key and the placeholder that stands in for
    it. *)
Inductive Sentinel : Key.t -> string -> string -> Prop :=
  | Sentinel_ip : Sentinel Key.ip "x-forwarded-for" "<ip?>"
  | Sentinel_referer : Sentinel Key.referer "referer" "<referer?>"
  | Sentinel_userAgent : Sentinel Key.userAgent "user-agent" "<user-agent?>".

(** Code units strictly between the space and the no-break space. *)
Definition visible (c : N) : bool := (32 <? c) && (c <? 160).

(** A run of [p] followed by something that does not start with [p]. *)
Definition stops (p : N -> bool) (rest : jsstring) : Prop :=
  match rest with
  | [] => True
  | c :: _ => p c = false
  end.

(** A blank message: white space only. *)
Definition isBlank (msg : jsstring) : bool := forallb isWhiteSpace msg.

(** An ANSI control sequence: ESC, an opening bracket, parameter bytes
    (0x30 to 0x3F), intermediate bytes (0x20 to 0x2F) and a final byte
    (0x40 to 0x7E). *)
Definition isParameterByte (c : N) : bool := (48 <=? c) && (c <=? 63).
Definition isIntermediateByte (c : N) : bool := (32 <=? c) && (c <=? 47).
Definition isFinalByte (c : N) : bool := (64 <=? c) && (c <=? 126).

Definition startsWithAnsi (l : jsstring) : bool :=
  match l with
  | c0 :: c1 :: r =>
      (c0 =? ESC) && (c1 =? 91) &&
      match dropWhile isIntermediateByte (dropWhile isParameterByte r) with
      | c :: _ => isFinalByte c
      | [] => false
      end
  | _ => false
  end.

Fixpoint containsAnsi (l : jsstring) : bool :=
  match l with
  | [] => false
  | _ :: r => startsWithAnsi l || containsAnsi r
  end.



(** ** Sample data *)

(** Two entries of the status table and an inherited member. *)
Definition StatusMapSample (s : jsstring) : value :=
  if str_eqb s (str "OK") then Num (Decimal false 200 0)
  else if str_eqb s (str "Not Found") then Num (Decimal false 404 0)
  else if str_eqb s (str "constructor") then Obj 1
  else Undefined.

(** A clock that advances by one unit per reading. *)
Definition clockSample : Clock :=
  {| hrtime := fun n => (5000 + Z.of_nat n)%Z;
     dateNow := fun n => Z.of_nat n |}.

Definition requestSample (h : Headers) : Request :=
  {| method := str "GET"; headers := h |}.

Definition contextSample (h : Headers) (s : StatusField) : Context :=
  {| request := requestSample h; path := str "/x"; body := Undefined;
     query := Obj 0; set_status := s |}.

(** A custom file destination. *)
Definition logFile : BunFile := {| ref := 3; name := Some (str "app.log") |}.

(** An instance as the constructor leaves it once [dest] is assigned. *)
Definition loggerTo (d : BunFile) : Logestic :=
  {| requestedAttrs := []; dest := Some d; showLevel := false;
     logLevelColour := noColours; httpLogging := true;
     explicitLogging := true |}.

Definition optionsSample (http explicit : option bool) : LogesticOptions.t :=
  {| LogesticOptions.dest := None; LogesticOptions.showLevel := None;
     LogesticOptions.logLevelColour := None;
     LogesticOptions.httpLogging := http;
     LogesticOptions.explicitLogging := explicit |}.



Definition callbackSample : Callback :=
  {| onRequest := None;
     onSuccess := fun _ => str "request served";
     onFailure := fun _ => str "request failed" |}.

(** ** Further notions *)

(** A text without the escape character. *)
Definition noEsc (l : jsstring) : bool :=
  forallb (fun c => negb (c =? ESC)) l.

(** A style that wraps its argument in two one-parameter colour
    sequences, as the 16-colour styles of chalk do. *)
Definition wraps (style : jsstring -> jsstring) : Prop :=
  exists a b,
    forallb isDigit a = true /\ forallb isDigit b = true /\
    forall s,
      style s = [ESC; 91] ++ a ++ [109] ++ s ++ [ESC; 91] ++ b ++ [109].

(** A chalk whose five background styles are of that kind. *)
Definition Basic16 (chalk : Chalk) : Prop :=
  wraps (bgBlue chalk) /\ wraps (bgGreen chalk) /\ wraps (bgYellow chalk) /\
  wraps (bgCyan chalk) /\ wraps (bgRed chalk).

(** A write that goes to the destination [d]. *)
Definition aimedAt (d : BunFile) (e : Effect) : Prop :=
  match e with
  | BunWrite f _ => f = d
  | AppendFile p _ => name d = Some p
  end.

(** An outcome that rejects only while [dest] is unassigned, and
    otherwise holds at most one write, aimed at [dest]. *)
Definition tame (self : Logestic) (o : Outcome) : Prop :=
  match o with
  | Rejected _ => dest self = None
  | Resolved effects =>
      (List.length effects <= 1)%nat /\
      forall e, e ∈ effects -> exists d, dest self = Some d /\ aimedAt d e
  end.

(** The 16-colour background styles with their codes; the hex style,
    which no statement about this sample reaches, is left plain. *)
Definition sgr (code : string) (s : jsstring) : jsstring :=
  [ESC; 91] ++ str code ++ [109] ++ s ++ [ESC; 91] ++ str "49" ++ [109].

Definition chalkSample16 : Chalk :=
  {| bgBlue := sgr "44"; bgGreen := sgr "42"; bgYellow := sgr "43";
     bgCyan := sgr "46"; bgRed := sgr "41"; hex := fun _ s => s |}.

(** An instance that shows level labels. *)
Definition labelledLoggerTo (d : BunFile) : Logestic :=
  {| requestedAttrs := []; dest := Some d; showLevel := true;
     logLevelColour := noColours; httpLogging := true;
     explicitLogging := true |}.

(** Options naming a destination and nothing else. *)
Definition optionsTo (d : BunFile) : LogesticOptions.t :=
  {| LogesticOptions.dest := Some d; LogesticOptions.showLevel := None;
     LogesticOptions.logLevelColour := None;
     LogesticOptions.httpLogging := None;
     LogesticOptions.explicitLogging := None |}.

(** * Properties *)

(** ** Strings *)

(** Turn boolean tests on code units into arithmetic facts. *)
Ltac unbool :=
  repeat match goal with
  | H : (_ && _) = true |- _ => apply andb_true_iff in H; destruct H
  | H : (_ || _) = false |- _ => apply orb_false_iff in H; destruct H
  | H : negb _ = true |- _ => apply negb_true_iff in H
  | H : negb _ = false |- _ => apply negb_false_iff in H
  | H : (_ =? _) = true |- _ => apply N.eqb_eq in H
  | H : (_ =? _) = false |- _ => apply N.eqb_neq in H
  | H : (_ <=? _) = true |- _ => apply N.leb_le in H
  | H : (_ <=? _) = false |- _ => apply N.leb_gt in H
  end.

Lemma takeWhile_dropWhile p l : takeWhile p l ++ dropWhile p l = l.
Proof.
  induction l as [|c r IH]; simpl; [reflexivity|].
  destruct (p c); simpl; [now rewrite IH | reflexivity].
Qed.

Lemma forallb_takeWhile p l : forallb p (takeWhile p l) = true.
Proof.
  induction l as [|c r IH]; simpl; [reflexivity|].
  destruct (p c) eqn:E; simpl; [now rewrite E | reflexivity].
Qed.

Lemma dropWhile_all p w l :
  forallb p w = true -> dropWhile p (w ++ l) = dropWhile p l.
Proof.
  induction w as [|c r IH]; simpl; [reflexivity|].
  intros H. apply andb_true_iff in H as [-> H]. now apply IH.
Qed.

Lemma takeWhile_all p w l :
  forallb p w = true -> takeWhile p (w ++ l) = w ++ takeWhile p l.
Proof.
  induction w as [|c r IH]; simpl; [reflexivity|].
  intros H. apply andb_true_iff in H as [-> H]. now rewrite IH.
Qed.

Lemma dropWhile_nil p w : forallb p w = true -> dropWhile p w = [].
Proof.
  intros H. rewrite <- (app_nil_r w). now rewrite dropWhile_all.
Qed.

Lemma dropWhile_stop p c l : p c = false -> dropWhile p (c :: l) = c :: l.
Proof. simpl. now intros ->. Qed.

Lemma takeWhile_stop p c l : p c = false -> takeWhile p (c :: l) = [].
Proof. simpl. now intros ->. Qed.

Lemma str_eqb_eq a b : str_eqb a b = true <-> a = b.
Proof.
  revert b. induction a as [|x a IH]; intros [|y b]; simpl; try easy.
  rewrite andb_true_iff, N.eqb_eq, IH. split; [intros [-> ->] | intros [= -> ->]]; auto.
Qed.

Lemma str_falsy_nil s : str_falsy s = true <-> s = [].
Proof. destruct s; simpl; split; congruence. Qed.

Lemma run_Digits p ds : run p ds = true <-> Digits p ds.
Proof.
  unfold run, Digits. rewrite andb_true_iff, negb_true_iff.
  destruct ds; simpl; split; intros [H1 H2]; split; congruence.
Qed.

(** Every string is its trimmed part between two runs of white space. *)
Lemma trim_decompose s :
  exists w1 w2,
    StrWhiteSpace w1 /\ StrWhiteSpace w2 /\ s = w1 ++ trim s ++ w2.
Proof.
  unfold trim, trimEnd, trimStart, StrWhiteSpace.
  set (t := dropWhile isWhiteSpace s).
  exists (takeWhile isWhiteSpace s), (rev (takeWhile isWhiteSpace (rev t))).
  split; [apply forallb_takeWhile|]. split.
  - rewrite forallb_forall. intros x Hx. apply in_rev in Hx.
    revert x Hx. rewrite <- forallb_forall. apply forallb_takeWhile.
  - rewrite <- rev_app_distr, takeWhile_dropWhile, rev_involutive.
    subst t. now rewrite takeWhile_dropWhile.
Qed.

(** Code units strictly between the space and the no-break space are not
    white space. *)
Lemma visible_not_white c : 32 < c < 160 -> isWhiteSpace c = false.
Proof.
  intros [H1 H2]. unfold isWhiteSpace.
  repeat (apply orb_false_iff; split);
    try (apply N.eqb_neq; lia).
  apply andb_false_iff. left. apply N.leb_gt. lia.
Qed.

Lemma visible_spec c : visible c = true -> isWhiteSpace c = false.
Proof.
  unfold visible. intros H. apply andb_true_iff in H as [H1 H2].
  apply N.ltb_lt in H1, H2. now apply visible_not_white.
Qed.

(** Trimming removes exactly the surrounding white space of a visible
    string. *)
Lemma trimStart_visible w l :
  StrWhiteSpace w -> forallb visible l = true -> trimStart (w ++ l) = l.
Proof.
  intros Hw Hl. unfold trimStart. rewrite dropWhile_all by exact Hw.
  destruct l as [|c r]; [reflexivity|]. simpl in Hl.
  apply andb_true_iff in Hl as [Hc _].
  apply dropWhile_stop, visible_spec, Hc.
Qed.

Lemma trim_visible w1 l w2 :
  StrWhiteSpace w1 -> StrWhiteSpace w2 -> forallb visible l = true ->
  trim (w1 ++ l ++ w2) = l.
Proof.
  intros H1 H2 Hl. unfold trim, trimEnd.
  destruct l as [|c r].
  - simpl. unfold trimStart. rewrite dropWhile_all by exact H1.
    now rewrite (dropWhile_nil _ _ H2).
  - unfold trimStart. rewrite dropWhile_all by exact H1.
    simpl in Hl. apply andb_true_iff in Hl as [Hc Hr].
    change ((c :: r) ++ w2) with (c :: (r ++ w2)).
    rewrite dropWhile_stop by now apply visible_spec.
    change (c :: r ++ w2) with ((c :: r) ++ w2).
    rewrite rev_app_distr, dropWhile_all.
    + assert (Hv : forallb visible (rev (c :: r)) = true).
      { rewrite forallb_forall. intros x Hx. apply in_rev in Hx.
        destruct Hx as [<-|Hx]; [exact Hc|].
        rewrite forallb_forall in Hr. auto. }
      destruct (rev (c :: r)) as [|x xs] eqn:E.
      * apply (f_equal (@List.length N)) in E. rewrite length_rev in E.
        discriminate.
      * simpl in Hv. apply andb_true_iff in Hv as [Hx _].
        rewrite dropWhile_stop by now apply visible_spec.
        rewrite <- E. apply rev_involutive.
    + rewrite forallb_forall. intros x Hx. apply in_rev in Hx.
      unfold StrWhiteSpace in H2. rewrite forallb_forall in H2. auto.
Qed.

(** ** [StringToMV] accepts exactly the numeric strings *)

Lemma parseSignedInteger_sound l e :
  parseSignedInteger l = Some e ->
  exists sign ds, Sign sign /\ Digits isDigit ds /\ l = sign ++ ds.
Proof.
  unfold parseSignedInteger. destruct l as [|c r]; [discriminate|].
  destruct (c =? 43) eqn:E1; [|destruct (c =? 45) eqn:E2].
  - destruct (run isDigit r) eqn:R; [|discriminate]. intros _.
    apply N.eqb_eq in E1 as ->. exists [43], r.
    split; [constructor|]. split; [now apply run_Digits | reflexivity].
  - destruct (run isDigit r) eqn:R; [|discriminate]. intros _.
    apply N.eqb_eq in E2 as ->. exists [45], r.
    split; [constructor|]. split; [now apply run_Digits | reflexivity].
  - destruct (run isDigit (c :: r)) eqn:R; [|discriminate]. intros _.
    exists [], (c :: r).
    split; [constructor|]. split; [now apply run_Digits | reflexivity].
Qed.

Lemma parseExponentOpt_sound l e :
  parseExponentOpt l = Some e -> ExponentPartOpt l.
Proof.
  unfold parseExponentOpt. destruct l as [|c r]; [constructor|].
  destruct ((c =? 101) || (c =? 69)) eqn:E; [|discriminate].
  intros H. apply parseSignedInteger_sound in H as (sign & ds & Hs & Hd & ->).
  constructor; auto.
  apply orb_true_iff in E as [E|E]; apply N.eqb_eq in E; auto.
Qed.

Lemma parseStrUnsignedDecimal_sound neg l v :
  parseStrUnsignedDecimal neg l = Some v ->
  StrUnsignedDecimalLiteral l /\ v <> NaN.
Proof.
  unfold parseStrUnsignedDecimal.
  destruct (str_eqb l (str "Infinity")) eqn:EI.
  { apply str_eqb_eq in EI as ->. intros [= <-]. split; [constructor|easy]. }
  pose proof (takeWhile_dropWhile isDigit l) as Hl.
  pose proof (forallb_takeWhile isDigit l) as Hds.
  set (ds := takeWhile isDigit l) in *.
  destruct (dropWhile isDigit l) as [|c r] eqn:D.
  - destruct (str_falsy ds) eqn:F; [discriminate|]. intros [= <-].
    split; [|easy]. rewrite <- Hl. apply Unsigned_int; [|constructor].
    split; [|exact Hds]. intros ->. discriminate.
  - destruct (c =? 46) eqn:E46.
    + apply N.eqb_eq in E46 as ->.
      pose proof (takeWhile_dropWhile isDigit r) as Hr.
      pose proof (forallb_takeWhile isDigit r) as Hfs.
      set (fs := takeWhile isDigit r) in *.
      destruct (str_falsy ds && str_falsy fs) eqn:F; [discriminate|].
      destruct (parseExponentOpt (dropWhile isDigit r)) as [e|] eqn:PE;
        [|discriminate].
      intros [= <-]. split; [|easy].
      apply parseExponentOpt_sound in PE.
      rewrite <- Hl, <- Hr.
      destruct ds as [|d ds'] eqn:Eds.
      * simpl in *. destruct fs; [discriminate|].
        apply Unsigned_dot; [split; [discriminate|exact Hfs] | exact PE].
      * apply Unsigned_int_dot; [split; [discriminate|exact Hds] | exact Hfs | exact PE].
    + destruct (str_falsy ds) eqn:F; [discriminate|].
      destruct (parseExponentOpt (c :: r)) as [e|] eqn:PE; [|discriminate].
      intros [= <-]. split; [|easy].
      apply parseExponentOpt_sound in PE. rewrite <- Hl.
      apply Unsigned_int; [|exact PE].
      split; [|exact Hds]. intros ->. discriminate.
Qed.

Lemma parseStrDecimal_sound l v :
  parseStrDecimal l = Some v -> StrNumericLiteral l /\ v <> NaN.
Proof.
  unfold parseStrDecimal. destruct l as [|c r]; [discriminate|].
  destruct (c =? 43) eqn:E1; [|destruct (c =? 45) eqn:E2].
  - apply N.eqb_eq in E1 as ->. intros H.
    apply parseStrUnsignedDecimal_sound in H as [H Hv]. split; [|exact Hv].
    apply (Numeric_decimal [43]); [constructor | exact H].
  - apply N.eqb_eq in E2 as ->. intros H.
    apply parseStrUnsignedDecimal_sound in H as [H Hv]. split; [|exact Hv].
    apply (Numeric_decimal [45]); [constructor | exact H].
  - intros H.
    apply parseStrUnsignedDecimal_sound in H as [H Hv]. split; [|exact Hv].
    apply (Numeric_decimal []); [constructor | exact H].
Qed.

Lemma parseNonDecimal_sound l n :
  parseNonDecimal l = Some n -> NonDecimalIntegerLiteral l.
Proof.
  unfold parseNonDecimal. destruct l as [|z [|x ds]]; try discriminate.
  destruct (z =? 48) eqn:Ez; simpl; [|discriminate].
  apply N.eqb_eq in Ez as ->.
  destruct (((x =? 98) || (x =? 66)) && run isBinaryDigit ds) eqn:B.
  { intros _. apply andb_true_iff in B as [Hx Hd].
    apply Binary_literal; [|now apply run_Digits].
    apply orb_true_iff in Hx as [E|E]; apply N.eqb_eq in E; auto. }
  destruct (((x =? 111) || (x =? 79)) && run isOctalDigit ds) eqn:O.
  { intros _. apply andb_true_iff in O as [Hx Hd].
    apply Octal_literal; [|now apply run_Digits].
    apply orb_true_iff in Hx as [E|E]; apply N.eqb_eq in E; auto. }
  destruct (((x =? 120) || (x =? 88)) && run isHexDigit ds) eqn:X;
    [|discriminate].
  intros _. apply andb_true_iff in X as [Hx Hd].
  apply Hex_literal; [|now apply run_Digits].
  apply orb_true_iff in Hx as [E|E]; apply N.eqb_eq in E; auto.
Qed.

(** A string that converts to a number is a numeric string. *)
Lemma StringToMV_sound s :
  StringToMV s <> NaN -> StringNumericLiteral s.
Proof.
  unfold StringToMV. intros H.
  destruct (trim_decompose s) as (w1 & w2 & H1 & H2 & Hs).
  destruct (str_falsy (trim s)) eqn:F.
  - apply str_falsy_nil in F. rewrite F in Hs. simpl in Hs. rewrite Hs.
    apply Literal_blank. unfold StrWhiteSpace in *.
    rewrite forallb_app. now rewrite H1, H2.
  - rewrite Hs. apply Literal_some; [exact H1| |exact H2].
    destruct (parseNonDecimal (trim s)) as [n|] eqn:PN.
    + apply Numeric_non_decimal. eapply parseNonDecimal_sound, PN.
    + destruct (parseStrDecimal (trim s)) as [v|] eqn:PD; [|congruence].
      eapply parseStrDecimal_sound, PD.
Qed.

(** Conversely, every numeric string converts to a number. *)

Lemma isHexDigit_visible c : isHexDigit c = true -> visible c = true.
Proof.
  unfold isHexDigit, isDigit, visible. intros H.
  apply andb_true_iff. rewrite !N.ltb_lt.
  apply orb_true_iff in H as [H|H]; [apply orb_true_iff in H as [H|H]|];
    unbool; lia.
Qed.

Lemma isDigit_hex c : isDigit c = true -> isHexDigit c = true.
Proof. unfold isHexDigit. now intros ->. Qed.

Lemma isOctalDigit_hex c : isOctalDigit c = true -> isHexDigit c = true.
Proof.
  unfold isOctalDigit, isHexDigit, isDigit. intros H. unbool.
  apply orb_true_iff; left; apply orb_true_iff; left.
  apply andb_true_iff. rewrite !N.leb_le. lia.
Qed.

Lemma isBinaryDigit_hex c : isBinaryDigit c = true -> isHexDigit c = true.
Proof.
  unfold isBinaryDigit, isHexDigit, isDigit. intros H.
  apply orb_true_iff; left; apply orb_true_iff; left.
  apply andb_true_iff. rewrite !N.leb_le.
  apply orb_true_iff in H as [H|H]; unbool; lia.
Qed.

Lemma forallb_impl (p q : N -> bool) l :
  (forall c, p c = true -> q c = true) ->
  forallb p l = true -> forallb q l = true.
Proof.
  intros Hpq. rewrite !forallb_forall. auto.
Qed.

Lemma digits_visible l : forallb isDigit l = true -> forallb visible l = true.
Proof.
  apply forallb_impl. intros c H. now apply isHexDigit_visible, isDigit_hex.
Qed.

Lemma Sign_visible sign : Sign sign -> forallb visible sign = true.
Proof. now intros []. Qed.

Lemma ExponentPartOpt_visible ex :
  ExponentPartOpt ex -> forallb visible ex = true.
Proof.
  intros [|ind sign ds Hind Hs [_ Hd]]; [reflexivity|].
  simpl. rewrite forallb_app, (Sign_visible _ Hs), (digits_visible _ Hd).
  now destruct Hind as [-> | ->].
Qed.

Lemma Unsigned_visible u :
  StrUnsignedDecimalLiteral u -> forallb visible u = true.
Proof.
  intros [|ds fs ex [_ Hd] Hf He|fs ex [_ Hf] He|ds ex [_ Hd] He];
    [reflexivity| | |];
    simpl; rewrite ?forallb_app; simpl; rewrite ?forallb_app;
    rewrite ?(digits_visible _ Hd), ?(digits_visible _ Hf),
      ?(ExponentPartOpt_visible _ He); reflexivity.
Qed.

Lemma NonDecimal_visible l :
  NonDecimalIntegerLiteral l -> forallb visible l = true.
Proof.
  intros [x ds Hx [_ Hd]|x ds Hx [_ Hd]|x ds Hx [_ Hd]]; simpl;
    (replace (visible x) with true by now destruct Hx as [-> | ->]); simpl;
    revert Hd; apply forallb_impl; intros c Hc; apply isHexDigit_visible;
    auto using isBinaryDigit_hex, isOctalDigit_hex.
Qed.

Lemma StrNumericLiteral_visible l :
  StrNumericLiteral l -> forallb visible l = true.
Proof.
  intros [sign u Hs Hu|l' Hl].
  - now rewrite forallb_app, (Sign_visible _ Hs), (Unsigned_visible _ Hu).
  - now apply NonDecimal_visible.
Qed.

Lemma takeWhile_run p ds rest :
  forallb p ds = true -> stops p rest -> takeWhile p (ds ++ rest) = ds.
Proof.
  intros Hd Hr. rewrite takeWhile_all by exact Hd.
  destruct rest as [|c r]; simpl in *; [|rewrite Hr]; apply app_nil_r.
Qed.

Lemma dropWhile_run p ds rest :
  forallb p ds = true -> stops p rest -> dropWhile p (ds ++ rest) = rest.
Proof.
  intros Hd Hr. rewrite dropWhile_all by exact Hd.
  destruct rest as [|c r]; simpl in *; [|rewrite Hr]; reflexivity.
Qed.

Lemma ExponentPartOpt_stops ex : ExponentPartOpt ex -> stops isDigit ex.
Proof.
  intros [|ind sign ds Hind _ _]; simpl; [exact I|].
  now destruct Hind as [-> | ->].
Qed.

Lemma parseSignedInteger_complete sign ds :
  Sign sign -> Digits isDigit ds ->
  exists e, parseSignedInteger (sign ++ ds) = Some e.
Proof.
  intros Hs Hd. pose proof Hd as [Hne Hall]. apply run_Digits in Hd.
  destruct Hs; simpl.
  - destruct ds as [|c r]; [congruence|].
    unfold parseSignedInteger. rewrite Hd.
    simpl in Hall. apply andb_true_iff in Hall as [Hc _].
    unfold isDigit in Hc. unbool.
    replace (c =? 43) with false by (symmetry; apply N.eqb_neq; lia).
    replace (c =? 45) with false by (symmetry; apply N.eqb_neq; lia).
    eauto.
  - rewrite Hd. eauto.
  - rewrite Hd. eauto.
Qed.

Lemma parseExponentOpt_complete ex :
  ExponentPartOpt ex -> exists e, parseExponentOpt ex = Some e.
Proof.
  intros [|ind sign ds Hind Hs Hd]; simpl; [eauto|].
  replace ((ind =? 101) || (ind =? 69)) with true
    by now destruct Hind as [-> | ->].
  now apply parseSignedInteger_complete.
Qed.

Lemma digits_not_Infinity ds rest :
  Digits isDigit ds -> str_eqb (ds ++ rest) (str "Infinity") = false.
Proof.
  intros [Hne Hall]. destruct ds as [|c r]; [congruence|].
  simpl in Hall. apply andb_true_iff in Hall as [Hc _].
  unfold isDigit in Hc. unbool.
  change (str "Infinity") with (73 :: str "nfinity"). simpl.
  apply andb_false_iff. left. apply N.eqb_neq. lia.
Qed.

Lemma Digits_not_falsy p ds : Digits p ds -> str_falsy ds = false.
Proof. intros [Hne _]. now destruct ds. Qed.

Lemma parseStrUnsignedDecimal_complete neg u :
  StrUnsignedDecimalLiteral u ->
  exists v, parseStrUnsignedDecimal neg u = Some v.
Proof.
  intros [|ds fs ex Hd Hf He|fs ex Hf He|ds ex Hd He].
  - eexists. reflexivity.
  - unfold parseStrUnsignedDecimal.
    rewrite (digits_not_Infinity _ _ Hd). cbv zeta.
    destruct (parseExponentOpt_complete _ He) as [e PE].
    rewrite (takeWhile_run isDigit ds), (dropWhile_run isDigit ds);
      try (apply Hd); try reflexivity.
    rewrite N.eqb_refl.
    rewrite (takeWhile_run isDigit fs), (dropWhile_run isDigit fs);
      auto using ExponentPartOpt_stops.
    rewrite (Digits_not_falsy _ _ Hd), PE. simpl. eauto.
  - unfold parseStrUnsignedDecimal.
    change (str "Infinity") with (73 :: str "nfinity").
    destruct (parseExponentOpt_complete _ He) as [e PE].
    pose proof Hf as [_ Hall].
    simpl str_eqb. simpl takeWhile. simpl dropWhile. cbv iota zeta.
    rewrite N.eqb_refl.
    rewrite (takeWhile_run isDigit fs), (dropWhile_run isDigit fs);
      auto using ExponentPartOpt_stops.
    rewrite (Digits_not_falsy _ _ Hf), PE. simpl. eauto.
  - unfold parseStrUnsignedDecimal.
    rewrite (digits_not_Infinity _ _ Hd). cbv zeta.
    destruct (parseExponentOpt_complete _ He) as [e PE].
    pose proof Hd as [_ Hall].
    rewrite (takeWhile_run isDigit ds), (dropWhile_run isDigit ds);
      auto using ExponentPartOpt_stops.
    rewrite (Digits_not_falsy _ _ Hd).
    destruct He as [|ind sign ds' Hind Hs Hd']; [eauto|].
    replace (ind =? 46) with false by now destruct Hind as [-> | ->].
    rewrite PE. eauto.
Qed.

Lemma Unsigned_head u :
  StrUnsignedDecimalLiteral u ->
  exists c r, u = c :: r /\ c <> 43 /\ c <> 45.
Proof.
  assert (Hdig : forall ds rest, Digits isDigit ds ->
            exists c r, ds ++ rest = c :: r /\ c <> 43 /\ c <> 45).
  { intros [|c r] rest [Hne Hall]; [congruence|].
    simpl in Hall. apply andb_true_iff in Hall as [Hc _].
    unfold isDigit in Hc. unbool.
    exists c, (r ++ rest). repeat split; lia. }
  intros [|ds fs ex Hd Hf He|fs ex Hf He|ds ex Hd He]; auto.
  - exists 73, (str "nfinity"). repeat split; lia.
  - exists 46, (fs ++ ex). repeat split; lia.
Qed.

Lemma parseStrDecimal_complete sign u :
  Sign sign -> StrUnsignedDecimalLiteral u ->
  exists v, parseStrDecimal (sign ++ u) = Some v.
Proof.
  intros Hs Hu. destruct Hs; simpl.
  - destruct (Unsigned_head _ Hu) as (c & r & E & H43 & H45).
    destruct (parseStrUnsignedDecimal_complete false _ Hu) as [v Hv].
    exists v. rewrite <- Hv, E. unfold parseStrDecimal.
    apply N.eqb_neq in H43, H45. now rewrite H43, H45.
  - apply (parseStrUnsignedDecimal_complete false _ Hu).
  - apply (parseStrUnsignedDecimal_complete true _ Hu).
Qed.

Lemma parseNonDecimal_complete l :
  NonDecimalIntegerLiteral l -> exists n, parseNonDecimal l = Some n.
Proof.
  intros [x ds Hx Hd|x ds Hx Hd|x ds Hx Hd]; apply run_Digits in Hd;
    unfold parseNonDecimal; rewrite N.eqb_refl; simpl negb; cbv iota;
    rewrite ?Hd.
  - replace ((x =? 98) || (x =? 66)) with true
      by now destruct Hx as [-> | ->].
    simpl. eauto.
  - destruct (((x =? 98) || (x =? 66)) && run isBinaryDigit ds); [eauto|].
    replace ((x =? 111) || (x =? 79)) with true
      by now destruct Hx as [-> | ->].
    simpl. eauto.
  - destruct (((x =? 98) || (x =? 66)) && run isBinaryDigit ds); [eauto|].
    destruct (((x =? 111) || (x =? 79)) && run isOctalDigit ds); [eauto|].
    replace ((x =? 120) || (x =? 88)) with true
      by now destruct Hx as [-> | ->].
    simpl. eauto.
Qed.

Lemma StrNumericLiteral_not_falsy l :
  StrNumericLiteral l -> str_falsy l = false.
Proof.
  intros [sign u Hs Hu|l' [x ds _ _|x ds _ _|x ds _ _]]; try reflexivity.
  destruct (Unsigned_head _ Hu) as (c & r & -> & _).
  now destruct Hs.
Qed.

Lemma StringToMV_complete s :
  StringNumericLiteral s -> StringToMV s <> NaN.
Proof.
  intros [ws Hws|ws1 l ws2 H1 Hl H2]; unfold StringToMV.
  - replace ws with (ws ++ [] ++ []) by now rewrite !app_nil_r.
    now rewrite (trim_visible ws [] []).
  - rewrite (trim_visible _ _ _ H1 H2 (StrNumericLiteral_visible _ Hl)).
    rewrite (StrNumericLiteral_not_falsy _ Hl).
    destruct (parseNonDecimal l) as [n|] eqn:PN; [easy|].
    destruct Hl as [sign u Hs Hu|l Hl].
    + destruct (parseStrDecimal_complete _ _ Hs Hu) as [v Hv].
      rewrite Hv. eapply parseStrDecimal_sound, Hv.
    + destruct (parseNonDecimal_complete _ Hl) as [n Hn]. congruence.
Qed.

(** [Number] yields [NaN] exactly on the strings outside the grammar. *)
Lemma StringToMV_NaN_iff s :
  StringToMV s = NaN <-> ~ StringNumericLiteral s.
Proof.
  split.
  - intros H Hl. now apply StringToMV_complete in Hl.
  - intros H. destruct (StringToMV s) eqn:E; [reflexivity| |];
      exfalso; apply H, StringToMV_sound; rewrite E; discriminate.
Qed.

(** Rounding turns no value into [NaN]. *)
Lemma RoundMVResult_NaN v : RoundMVResult v = NaN <-> v = NaN.
Proof.
  split; [|now intros ->]. destruct v as [|neg|neg d e]; try easy.
  unfold RoundMVResult. repeat case_match; discriminate.
Qed.

Lemma StringToNumber_complete s :
  StringNumericLiteral s -> StringToNumber s <> NaN.
Proof.
  intros H. unfold StringToNumber. rewrite RoundMVResult_NaN.
  now apply StringToMV_complete.
Qed.

Lemma StringToNumber_NaN_iff s :
  StringToNumber s = NaN <-> ~ StringNumericLiteral s.
Proof.
  unfold StringToNumber. rewrite RoundMVResult_NaN. apply StringToMV_NaN_iff.
Qed.

(** ** [buildAttrs] *)

Section BuildAttrsFacts.

Context (StatusMap : jsstring -> value) (clock : Clock).
Context (ctx : Context) (timeStart : Z).

Local Abbreviation step := (buildStep StatusMap clock ctx timeStart).
Local Abbreviation loop l := (buildLoop StatusMap clock ctx l timeStart).

Lemma buildLoop_snoc l k st : loop (l ++ [k]) st = step (loop l st) k.
Proof. unfold buildLoop. now rewrite fold_left_app. Qed.

(** An iteration touches no key but its own. *)
Lemma buildStep_lookup_ne st k k' :
  k' <> k -> attrs (step st k') !! k = attrs st !! k.
Proof.
  intros Hne. destruct k'; simpl; try destruct (status_falsy _); simpl;
    try reflexivity; now rewrite lookup_insert_ne.
Qed.

(** The key of an iteration is stored, except [status] when
    [set.status] is falsy. *)
Lemma buildStep_dom st k :
  dom (attrs (step st k)) =
  if bool_decide (k = Key.status) && status_falsy (set_status ctx)
  then dom (attrs st) else {[k]} ∪ dom (attrs st).
Proof.
  destruct k; simpl; try destruct (status_falsy _); simpl;
    try reflexivity; now rewrite dom_insert_L.
Qed.

Lemma buildLoop_dom l st k :
  k ∈ dom (attrs (loop l st)) <->
  k ∈ dom (attrs st) \/
  (k ∈ l /\ (k = Key.status -> status_falsy (set_status ctx) = false)).
Proof.
  revert st. induction l as [|k' l IH]; intros st.
  - simpl. split; [auto|]. intros [H|[H _]]; [exact H|].
    now apply elem_of_nil in H.
  - change (loop (k' :: l) st) with (loop l (step st k')).
    rewrite IH, buildStep_dom, elem_of_cons.
    destruct (bool_decide (k' = Key.status)) eqn:Ek;
      [apply bool_decide_eq_true in Ek|apply bool_decide_eq_false in Ek];
      simpl; [destruct (status_falsy (set_status ctx)) eqn:F|];
      rewrite ?elem_of_union, ?elem_of_singleton;
      split; intros H; try (subst k'); intuition (subst; auto; congruence).
Qed.

(** The value of a requested key is the one its last iteration stores,
    in whatever state that iteration starts. *)
Lemma buildLoop_last l st k :
  k ∈ l -> exists st', attrs (loop l st) !! k = attrs (step st' k) !! k.
Proof.
  induction l as [|k' l IH] using rev_ind; intros Hk.
  - now apply elem_of_nil in Hk.
  - rewrite buildLoop_snoc. destruct (decide (k' = k)) as [->|Hne].
    + eauto.
    + rewrite buildStep_lookup_ne by exact Hne. apply IH.
      apply elem_of_app in Hk as [Hk|Hk]; [exact Hk|].
      apply list_elem_of_singleton in Hk. congruence.
Qed.

Lemma buildAttrs_ip l :
  Key.ip ∈ l ->
  buildAttrs StatusMap clock ctx l timeStart !! Key.ip =
  Some (Str (str_or (header (request ctx) "x-forwarded-for") (str "<ip?>"))).
Proof.
  intros H. unfold buildAttrs.
  destruct (buildLoop_last l {| attrs := ∅; hrReads := 0; dateReads := 0 |} _ H)
    as [st' ->].
  simpl. apply lookup_insert_eq.
Qed.

Lemma buildAttrs_referer l :
  Key.referer ∈ l ->
  buildAttrs StatusMap clock ctx l timeStart !! Key.referer =
  Some (Str (str_or (header (request ctx) "referer") (str "<referer?>"))).
Proof.
  intros H. unfold buildAttrs.
  destruct (buildLoop_last l {| attrs := ∅; hrReads := 0; dateReads := 0 |} _ H)
    as [st' ->].
  simpl. apply lookup_insert_eq.
Qed.

Lemma buildAttrs_userAgent l :
  Key.userAgent ∈ l ->
  buildAttrs StatusMap clock ctx l timeStart !! Key.userAgent =
  Some (Str (str_or (header (request ctx) "user-agent") (str "<user-agent?>"))).
Proof.
  intros H. unfold buildAttrs.
  destruct (buildLoop_last l {| attrs := ∅; hrReads := 0; dateReads := 0 |} _ H)
    as [st' ->].
  simpl. apply lookup_insert_eq.
Qed.

Lemma buildAttrs_contentLength l :
  Key.contentLength ∈ l ->
  buildAttrs StatusMap clock ctx l timeStart !! Key.contentLength =
  Some (Num (Number (header (request ctx) "content-length"))).
Proof.
  intros H. unfold buildAttrs.
  destruct (buildLoop_last l {| attrs := ∅; hrReads := 0; dateReads := 0 |} _ H)
    as [st' ->].
  simpl. apply lookup_insert_eq.
Qed.

(** The high-resolution clock is read once per [duration] key. *)
Lemma buildLoop_hrReads l st :
  hrReads (loop l st) =
  (hrReads st + count_occ Key.eq_dec l Key.duration)%nat.
Proof.
  induction l as [|k l IH] using rev_ind.
  - simpl. lia.
  - rewrite buildLoop_snoc, count_occ_app.
    destruct k; simpl; try destruct (status_falsy _); simpl; rewrite IH;
      lia.
Qed.

(** [duration] is computed from the last reading of the clock. *)
Lemma buildLoop_duration l st :
  Key.duration ∈ l ->
  attrs (loop l st) !! Key.duration =
  Some (BigInt
    ((hrtime clock
        (hrReads st + pred (count_occ Key.eq_dec l Key.duration))
      - timeStart) ÷ 1000)).
Proof.
  induction l as [|k l IH] using rev_ind; intros Hk.
  - now apply elem_of_nil in Hk.
  - rewrite buildLoop_snoc, count_occ_app.
    destruct (decide (k = Key.duration)) as [->|Hne].
    + simpl. rewrite lookup_insert_eq, buildLoop_hrReads.
      now rewrite Nat.add_1_r.
    + rewrite buildStep_lookup_ne by exact Hne.
      apply elem_of_app in Hk as [Hk|Hk];
        [|apply list_elem_of_singleton in Hk; congruence].
      rewrite (IH Hk). simpl.
      destruct (Key.eq_dec k Key.duration); [congruence|].
      now rewrite Nat.add_0_r.
Qed.

End BuildAttrsFacts.

Lemma StringToNumber_blank ws : isBlank ws = true -> StringToNumber ws = zero.
Proof.
  intros Hb. unfold StringToNumber, StringToMV.
  replace (trim ws) with (@nil N); [reflexivity|].
  symmetry. rewrite <- (app_nil_r ws). now apply (trim_visible ws [] []).
Qed.

(** C3, as amended: when [contentLength] is requested, [buildAttrs]
    stores [Number] of the content-length header and never fails; the
    value is 0 when the header is absent, and also when it is present but
    empty or blank; it is not-a-number exactly when the header is present
    and is not a numeric string. *)
Theorem C3_contentLength_coercion
    (StatusMap : jsstring -> value) (clock : Clock)
    (ctx : Context) (L : list Key.t) (T0 : Z) :
  Key.contentLength ∈ L ->
  let v := buildAttrs StatusMap clock ctx L T0 !! Key.contentLength in
  match header (request ctx) "content-length" with
  | None => v = Some (Num zero)
  | Some s =>
      (~ StringNumericLiteral s -> v = Some (Num NaN)) /\
      (StringNumericLiteral s -> exists n, v = Some (Num n) /\ n <> NaN) /\
      (isBlank s = true -> v = Some (Num zero))
  end.
Proof.
  intros HL v. subst v. rewrite (buildAttrs_contentLength _ _ _ _ _ HL).
  destruct (header (request ctx) "content-length") as [s|]; [|reflexivity].
  simpl. split; [|split].
  - intros Hs. apply StringToNumber_NaN_iff in Hs. now rewrite Hs.
  - intros Hs. eexists. split; [reflexivity|].
    now apply StringToNumber_complete.
  - intros Hb. now rewrite StringToNumber_blank.
Qed.

(** A request whose content-length header is not a number. *)
Lemma C3_contentLength_coercion_witness :
  Key.contentLength ∈ [Key.contentLength] /\
  let ctx := contextSample [(str "Content-Length", str "12px")] status_unset in
  let v :=
    buildAttrs StatusMapSample clockSample ctx [Key.contentLength] 0
      !! Key.contentLength in
  match header (request ctx) "content-length" with
  | None => v = Some (Num zero)
  | Some s =>
      (~ StringNumericLiteral s -> v = Some (Num NaN)) /\
      (StringNumericLiteral s -> exists n, v = Some (Num n) /\ n <> NaN) /\
      (isBlank s = true -> v = Some (Num zero))
  end.
Proof.
  split; [constructor|].
  apply (C3_contentLength_coercion StatusMapSample clockSample
           (contextSample [(str "Content-Length", str "12px")] status_unset)
           [Key.contentLength] 0).
  constructor.
Defined.

(** With no content-length header the value is 0, not [NaN]. *)
Lemma C3_absent_header_is_zero :
  ~ (forall (StatusMap : jsstring -> value) (clock : Clock)
       (ctx : Context) (L : list Key.t) (T0 : Z),
       Key.contentLength ∈ L ->
       header (request ctx) "content-length" = None \/
       (exists s, header (request ctx) "content-length" = Some s /\
                  ~ StringNumericLiteral s) ->
       buildAttrs StatusMap clock ctx L T0 !! Key.contentLength =
       Some (Num NaN)).
Proof.
  intros H.
  specialize (H StatusMapSample clockSample (contextSample [] status_unset)
                [Key.contentLength] 0%Z).
  rewrite buildAttrs_contentLength in H by constructor.
  discriminate H; [constructor | now left].
Qed.

(** C5, as amended: the attribute set holds exactly the requested keys,
    each once, except that [status] is left out whenever [set.status] is
    falsy (unset, but also 0, not-a-number or the empty name). *)
Theorem C5_requested_keys
    (StatusMap : jsstring -> value) (clock : Clock)
    (ctx : Context) (L : list Key.t) (T0 : Z) :
  (forall k,
     k ∈ dom (buildAttrs StatusMap clock ctx L T0) <->
     k ∈ L /\ (k = Key.status -> status_falsy (set_status ctx) = false)) /\
  NoDup (map fst (map_to_list (buildAttrs StatusMap clock ctx L T0))).
Proof.
  split.
  - intros k. unfold buildAttrs. rewrite buildLoop_dom. simpl.
    rewrite dom_empty_L. split; [intros [H|H]|intros H]; auto.
    now apply not_elem_of_empty in H.
  - apply NoDup_fst_map_to_list.
Qed.

(** A status of 0 is set, yet the [status] key is left out. *)
Lemma C5_status_zero_dropped :
  ~ (forall (StatusMap : jsstring -> value) (clock : Clock)
       (ctx : Context) (L : list Key.t) (T0 : Z) (k : Key.t),
       k ∈ dom (buildAttrs StatusMap clock ctx L T0) <->
       k ∈ L /\ ~ (k = Key.status /\ set_status ctx = status_unset)).
Proof.
  intros H.
  specialize (H StatusMapSample clockSample
                (contextSample [] (status_number zero))
                [Key.status] 0%Z Key.status).
  destruct H as [_ H].
  assert (Hin : Key.status ∈
            dom (buildAttrs StatusMapSample clockSample
                   (contextSample [] (status_number zero)) [Key.status] 0)).
  { apply H. split; [constructor|]. intros [_ Hs]. discriminate Hs. }
  unfold buildAttrs in Hin. apply buildLoop_dom in Hin as [Hin|[_ Hin]].
  - simpl in Hin. rewrite dom_empty_L in Hin.
    now apply not_elem_of_empty in Hin.
  - specialize (Hin eq_refl). discriminate Hin.
Qed.

(** C9: when [duration] is requested, its value is computed from the
    last reading [T1] of the high-resolution clock; if [T1] is not before
    the start time [T0], the value is the elapsed nanoseconds divided by
    1000, rounded down, and is not negative. *)
Theorem C9_duration_microseconds
    (StatusMap : jsstring -> value) (clock : Clock)
    (ctx : Context) (L : list Key.t) (T0 : Z) :
  Key.duration ∈ L ->
  let T1 := hrtime clock (pred (count_occ Key.eq_dec L Key.duration)) in
  (T0 <= T1)%Z ->
  exists d,
    buildAttrs StatusMap clock ctx L T0 !! Key.duration = Some (BigInt d) /\
    d = ((T1 - T0) / 1000)%Z /\
    (0 <= d)%Z /\
    (1000 * d <= T1 - T0 < 1000 * d + 1000)%Z.
Proof.
  intros HL T1 Hle. unfold buildAttrs.
  rewrite (buildLoop_duration _ _ _ _ _ _ HL). simpl. fold T1.
  exists ((T1 - T0) ÷ 1000)%Z. split; [reflexivity|].
  assert (Hq : ((T1 - T0) ÷ 1000 = (T1 - T0) / 1000)%Z)
    by (apply Z.quot_div_nonneg; lia).
  rewrite Hq. split; [reflexivity|].
  pose proof (Z.div_pos (T1 - T0) 1000 ltac:(lia) ltac:(lia)).
  pose proof (Z.mul_div_le (T1 - T0) 1000 ltac:(lia)).
  pose proof (Z.mul_succ_div_gt (T1 - T0) 1000 ltac:(lia)).
  lia.
Qed.

(** [duration] requested twice, 5001 - 1000 nanoseconds elapsed. *)
Lemma C9_duration_microseconds_witness :
  Key.duration ∈ [Key.duration; Key.path; Key.duration] /\
  (1000 <= hrtime clockSample 1)%Z /\
  exists d,
    buildAttrs StatusMapSample clockSample (contextSample [] status_unset)
      [Key.duration; Key.path; Key.duration] 1000 !! Key.duration =
    Some (BigInt d) /\
    d = ((hrtime clockSample 1 - 1000) / 1000)%Z /\
    (0 <= d)%Z /\
    (1000 * d <= hrtime clockSample 1 - 1000 < 1000 * d + 1000)%Z.
Proof.
  split; [constructor|]. split; [simpl; lia|].
  apply (C9_duration_microseconds StatusMapSample clockSample
           (contextSample [] status_unset)
           [Key.duration; Key.path; Key.duration] 1000);
    [constructor | simpl; lia].
Defined.

(** C10: for [ip], [referer] and [userAgent], a header that is present
    but empty gets the same placeholder as a header that is absent. *)
Theorem C10_empty_header_placeholder
    (StatusMap : jsstring -> value) (clock : Clock)
    (ctx : Context) (L : list Key.t) (T0 : Z)
    (k : Key.t) (name placeholder : string) :
  Sentinel k name placeholder ->
  k ∈ L ->
  missing (header (request ctx) name) ->
  buildAttrs StatusMap clock ctx L T0 !! k = Some (Str (str placeholder)).
Proof.
  intros HS HL Hm. destruct HS.
  - rewrite (buildAttrs_ip _ _ _ _ _ HL). now destruct Hm as [-> | ->].
  - rewrite (buildAttrs_referer _ _ _ _ _ HL). now destruct Hm as [-> | ->].
  - rewrite (buildAttrs_userAgent _ _ _ _ _ HL). now destruct Hm as [-> | ->].
Qed.

(** A referer header that is present and empty. *)
Lemma C10_empty_header_placeholder_witness :
  let ctx := contextSample [(str "Referer", [])] status_unset in
  header (request ctx) "referer" = Some [] /\
  buildAttrs StatusMapSample clockSample ctx [Key.ip; Key.referer] 0
    !! Key.referer = Some (Str (str "<referer?>")).
Proof.
  split; [reflexivity|].
  apply (C10_empty_header_placeholder StatusMapSample clockSample
           (contextSample [(str "Referer", [])] status_unset)
           [Key.ip; Key.referer] 0 Key.referer "referer" "<referer?>").
  - constructor.
  - constructor. constructor.
  - right. reflexivity.
Defined.

(** ** The class *)

(** Whatever the options say, a constructed instance has both logging
    switches on: [x || true] is [true] for every [x]. *)
Lemma constructor_switches options self pending :
  constructor options = Created self pending ->
  httpLogging self = true /\ explicitLogging self = true.
Proof.
  unfold constructor, setDest.
  destruct (same _ Bun_stdin); [discriminate|].
  destruct (same _ Bun_stdout || same _ Bun_stderr);
    intros [= <- _]; simpl;
    destruct (LogesticOptions.httpLogging options) as [[]|];
    destruct (LogesticOptions.explicitLogging options) as [[]|];
    split; reflexivity.
Qed.

(** [log] issues at most one write. *)
Lemma log_cases self msg :
  log self msg =
  match msg, dest self with
  | [], _ => Resolved []
  | _, None => Rejected TypeError
  | _, Some d =>
      match name d with
      | Some (c :: path) =>
          Resolved [AppendFile (c :: path) (removeAnsi (msg ++ [LF]))]
      | _ => Resolved [BunWrite d (msg ++ [LF])]
      end
  end.
Proof.
  unfold log. destruct msg as [|c r]; [reflexivity|]. simpl str_falsy.
  cbv iota zeta. destruct (dest self) as [d|]; [|reflexivity].
  destruct (name d) as [[|p ps]|]; reflexivity.
Qed.

(** C1: [new Logestic({ explicitLogging: false })] yields an instance
    whose [explicitLogging] field is [true]; on it [info], [warn],
    [debug] and [error] each write their message to standard output. *)
Theorem C1_explicitLogging_false_still_logs (chalk : Chalk) :
  let options := optionsSample None (Some false) in
  let self := loggerTo Bun_stdout in
  let line := Resolved [BunWrite Bun_stdout (str "hello" ++ [LF])] in
  LogesticOptions.explicitLogging options = Some false /\
  constructor options = Created self None /\
  explicitLogging self = true /\
  info chalk self (str "hello") = line /\
  warn chalk self (str "hello") = line /\
  debug chalk self (str "hello") = line /\
  error chalk self (str "hello") = line.
Proof. repeat split. Qed.

(** C2: [new Logestic({ httpLogging: false })] yields an instance whose
    [httpLogging] field is [true]; its after-response hook writes the
    success line of a completed request. *)
Theorem C2_httpLogging_false_still_logs
    (chalk : Chalk) (StatusMap : jsstring -> value)
    (clock : Clock) (ctx : Context) (T0 : Z) :
  let options := optionsSample (Some false) None in
  let self := loggerTo Bun_stdout in
  LogesticOptions.httpLogging options = Some false /\
  constructor options = Created self None /\
  httpLogging self = true /\
  format_onAfterResponse chalk StatusMap callbackSample self clock ctx T0 =
  Resolved [BunWrite Bun_stdout (str "request served" ++ [LF])].
Proof. repeat split. Qed.

(** C4: on a file destination, a message carrying a two-parameter colour
    sequence is appended with the sequence intact, and stripping the
    inner sequence of a nested pair leaves a complete sequence behind. *)
Theorem C4_file_output_keeps_ansi :
  let self := loggerTo logFile in
  let bold_red := [ESC; 91] ++ str "1;31m" ++ str "hi" in
  let nested := [ESC; 91] ++ [ESC; 91] ++ str "0m" ++ str "m" in
  log self bold_red = Resolved [AppendFile (str "app.log") (bold_red ++ [LF])] /\
  containsAnsi (bold_red ++ [LF]) = true /\
  log self nested =
    Resolved [AppendFile (str "app.log") ([ESC; 91] ++ str "m" ++ [LF])] /\
  containsAnsi ([ESC; 91] ++ str "m" ++ [LF]) = true.
Proof. repeat split. Qed.

(** The line handed to [log] is empty only for an empty message without
    level label. *)
Lemma line_nil_iff chalk self type m :
  (if showLevel self then withLevel chalk self type m else m) = [] <->
  m = [] /\ showLevel self = false.
Proof.
  destruct (showLevel self).
  - split; [|intros [_ H]; discriminate H]. unfold withLevel. intros H.
    apply app_eq_nil in H as [_ H]. discriminate H.
  - split; [auto | now intros [H _]].
Qed.




(** C7: with [dest] set to standard input the constructor throws,
    whatever the other options are. *)
Theorem C7_stdin_rejected
    (showLevel httpLogging explicitLogging : option bool)
    (logLevelColour : option LogLevelColour) :
  constructor
    {| LogesticOptions.dest := Some Bun_stdin;
       LogesticOptions.showLevel := showLevel;
       LogesticOptions.logLevelColour := logLevelColour;
       LogesticOptions.httpLogging := httpLogging;
       LogesticOptions.explicitLogging := explicitLogging |}
  = Threw CannotLogToStdin.
Proof. reflexivity. Qed.

(** C8, as amended: every logging call hands one line to [log]: the
    message, with the level label and a space in front when [showLevel]
    is on.  The call is a no-op when that line is the empty string, that
    is, for an empty message without label; a blank line is not ignored.
    A non-empty line gives, once the destination is assigned, exactly one
    write: the line and one newline to a destination without a name,
    [removeAnsi] of the line and newline to a named file. *)
Theorem C8_log_writes
    (chalk : Chalk) (StatusMap : jsstring -> value)
    (formatAttr : Callback) (self : Logestic) (clock : Clock)
    (ctx : Context) (req : Request) (err code : value) (T0 : Z)
    (msg : jsstring) :
  let line type m :=
    if showLevel self then withLevel chalk self type m else m in
  (forall type m, line type m = [] <-> m = [] /\ showLevel self = false) /\
  log self [] = Resolved [] /\
  (forall d l, dest self = Some d -> l <> [] ->
     log self l =
     Resolved
       [match name d with
        | None => BunWrite d (l ++ [LF])
        | Some path =>
            if str_falsy path then BunWrite d (l ++ [LF])
            else AppendFile path (removeAnsi (l ++ [LF]))
        end]) /\
  (explicitLogging self = true ->
     info chalk self msg = log self (line info_t msg) /\
     warn chalk self msg = log self (line warn_t msg) /\
     debug chalk self msg = log self (line debug_t msg) /\
     error chalk self msg = log self (line error_t msg)) /\
  (forall f, onRequest formatAttr = Some f ->
     snd (format_onRequest chalk formatAttr self clock req) =
     log self (line http (f req))) /\
  (httpLogging self = true ->
     format_onAfterResponse chalk StatusMap formatAttr self clock ctx T0 =
     log self
       (line http
          (onSuccess formatAttr
             (buildAttrs StatusMap clock ctx (requestedAttrs self) T0)))) /\
  format_onError chalk formatAttr self clock req err code =
  log self
    (line error_t
       (onFailure formatAttr
          {| Failure.request := req; Failure.error := err;
             Failure.code := code; Failure.datetime := dateNow clock 0 |})).
Proof.
  intros line. split; [intros type m; apply line_nil_iff|].
  split; [reflexivity|]. split.
  { intros d l Hd Hne. rewrite log_cases, Hd.
    destruct l as [|c r]; [congruence|].
    destruct (name d) as [[|p ps]|]; reflexivity. }
  split.
  { intros He. unfold info, warn, debug, error. rewrite He.
    repeat split. }
  split.
  { intros f Hf. unfold format_onRequest. now rewrite Hf. }
  split; [|reflexivity].
  intros Hh. unfold format_onAfterResponse. now rewrite Hh.
Qed.

(** A message through [info] to standard output and through the error
    hook to a file. *)
Lemma C8_log_writes_witness :
  info chalkLevel0 (loggerTo Bun_stdout) (str "up") =
    Resolved [BunWrite Bun_stdout (str "up" ++ [LF])] /\
  format_onError chalkLevel0 callbackSample (loggerTo logFile) clockSample
    (requestSample []) Undefined Undefined =
    Resolved [AppendFile (str "app.log") (str "request failed" ++ [LF])].
Proof.
  destruct (C8_log_writes chalkLevel0 StatusMapSample callbackSample
              (loggerTo Bun_stdout) clockSample
              (contextSample [] status_unset) (requestSample [])
              Undefined Undefined 0 (str "up"))
    as (_ & _ & H3 & H4 & _).
  destruct (C8_log_writes chalkLevel0 StatusMapSample callbackSample
              (loggerTo logFile) clockSample
              (contextSample [] status_unset) (requestSample [])
              Undefined Undefined 0 (str "up"))
    as (_ & _ & F3 & _ & _ & _ & F7).
  split.
  - destruct (H4 eq_refl) as [-> _].
    apply (H3 Bun_stdout (str "up") eq_refl). discriminate.
  - rewrite F7.
    apply (F3 logFile (str "request failed") eq_refl). discriminate.
Defined.

(** A blank message to standard output is written, a message with
    leading white space reaches a file without it, and with the level
    label on an explicit call with the empty message writes the label. *)
Lemma C8_blank_message_written :
  isBlank (str " ") = true /\
  log (loggerTo Bun_stdout) (str " ") =
    Resolved [BunWrite Bun_stdout (str " " ++ [LF])] /\
  log (loggerTo logFile) (str " up") =
    Resolved [AppendFile (str "app.log") (str "up" ++ [LF])] /\
  str "up" ++ [LF] <> str " up" ++ [LF] /\
  info chalkLevel0 (loggerTo Bun_stdout) (str " ") =
    Resolved [BunWrite Bun_stdout (str " " ++ [LF])] /\
  info chalkLevel0 (labelledLoggerTo Bun_stdout) [] =
    Resolved [BunWrite Bun_stdout (str " INFO  " ++ [LF])].
Proof. repeat split. discriminate. Qed.

(** * Further properties *)

(** ** [removeAnsi] *)

Lemma replaceAnsi_0_cons c r :
  replaceAnsi 0 (c :: r) =
  match matchAnsi (c :: r) with
  | Some n => replaceAnsi (pred n) r
  | None => c :: replaceAnsi 0 r
  end.
Proof. reflexivity. Qed.

Lemma matchAnsi_other c r : c <> ESC -> matchAnsi (c :: r) = None.
Proof.
  intros H. unfold matchAnsi. destruct r as [|c1 r]; [reflexivity|].
  apply N.eqb_neq in H. now rewrite H.
Qed.

(** Text without escape characters goes through the replacement
    unchanged. *)
Lemma replaceAnsi_plain_app l t :
  noEsc l = true -> replaceAnsi 0 (l ++ t) = l ++ replaceAnsi 0 t.
Proof.
  induction l as [|c l IH]; [reflexivity|]. simpl noEsc. intros H.
  apply andb_true_iff in H as [Hc Hl]. apply negb_true_iff, N.eqb_neq in Hc.
  change ((c :: l) ++ t) with (c :: (l ++ t)).
  rewrite replaceAnsi_0_cons, matchAnsi_other by exact Hc.
  now rewrite IH.
Qed.

Lemma replaceAnsi_plain l : noEsc l = true -> replaceAnsi 0 l = l.
Proof.
  intros H. rewrite <- (app_nil_r l) at 1.
  rewrite replaceAnsi_plain_app by exact H. apply app_nil_r.
Qed.

Lemma replaceAnsi_skip pre rest :
  replaceAnsi (List.length pre) (pre ++ rest) = replaceAnsi 0 rest.
Proof. induction pre as [|c pre IH]; [reflexivity|exact IH]. Qed.

(** A one-parameter sequence at the head is deleted. *)
Lemma replaceAnsi_sequence ds rest :
  forallb isDigit ds = true ->
  replaceAnsi 0 ([ESC; 91] ++ ds ++ [109] ++ rest) = replaceAnsi 0 rest.
Proof.
  intros Hd.
  change ([ESC; 91] ++ ds ++ [109] ++ rest)
    with (ESC :: 91 :: ds ++ 109 :: rest).
  rewrite replaceAnsi_0_cons. unfold matchAnsi.
  rewrite N.eqb_refl. simpl andb. cbv iota.
  rewrite (dropWhile_run isDigit ds (109 :: rest)) by (auto; reflexivity).
  rewrite (takeWhile_run isDigit ds (109 :: rest)) by (auto; reflexivity).
  rewrite N.eqb_refl.
  replace (pred (3 + List.length ds))
    with (List.length (91 :: ds ++ [109]))
    by (simpl; rewrite length_app; simpl; lia).
  replace (91 :: ds ++ 109 :: rest) with ((91 :: ds ++ [109]) ++ rest)
    by (simpl; now rewrite <- app_assoc).
  apply replaceAnsi_skip.
Qed.

Lemma replaceAnsi_sublist k l : replaceAnsi k l `sublist_of` l.
Proof.
  revert k. induction l as [|c r IH]; intros k; [constructor|].
  destruct k as [|k].
  - rewrite replaceAnsi_0_cons. destruct (matchAnsi (c :: r)).
    + apply sublist_cons, IH.
    + apply sublist_skip, IH.
  - apply sublist_cons, IH.
Qed.

Lemma dropWhile_sublist p l : dropWhile p l `sublist_of` l.
Proof.
  induction l as [|c r IH]; simpl; [constructor|].
  destruct (p c); [apply sublist_cons, IH | reflexivity].
Qed.

Lemma dropWhile_head p l :
  match dropWhile p l with
  | c :: _ => p c = false
  | [] => True
  end.
Proof.
  induction l as [|c r IH]; simpl; [exact I|].
  destruct (p c) eqn:E; [exact IH | exact E].
Qed.

Lemma white_not_escape c : isWhiteSpace c = true -> negb (c =? ESC) = true.
Proof.
  intros H. apply negb_true_iff, N.eqb_neq. intros ->. discriminate H.
Qed.

Lemma blank_noEsc l : forallb isWhiteSpace l = true -> noEsc l = true.
Proof. unfold noEsc. apply forallb_impl, white_not_escape. Qed.

(** X1: [removeAnsi] only deletes code units: its result is a
    subsequence of its argument, and it never begins with white space. *)
Theorem removeAnsi_only_deletes (text : jsstring) :
  removeAnsi text `sublist_of` text /\
  match removeAnsi text with
  | c :: _ => isWhiteSpace c = false
  | [] => True
  end.
Proof.
  unfold removeAnsi, trimStart. split.
  - etransitivity; [apply dropWhile_sublist | apply replaceAnsi_sublist].
  - apply dropWhile_head.
Qed.

Lemma removeAnsi_noEsc text :
  noEsc text = true -> removeAnsi text = trimStart text.
Proof. intros H. unfold removeAnsi. now rewrite replaceAnsi_plain. Qed.

Lemma removeAnsi_wrapped a b s t :
  forallb isDigit a = true -> forallb isDigit b = true ->
  noEsc s = true -> noEsc t = true ->
  removeAnsi ([ESC; 91] ++ a ++ [109] ++ s ++ [ESC; 91] ++ b ++ [109] ++ t)
  = trimStart (s ++ t).
Proof.
  intros Ha Hb Hs Ht. unfold removeAnsi.
  rewrite replaceAnsi_sequence by exact Ha.
  rewrite replaceAnsi_plain_app by exact Hs.
  rewrite replaceAnsi_sequence by exact Hb.
  now rewrite replaceAnsi_plain.
Qed.

(** X2: on a text without escape characters [removeAnsi] only trims the
    leading white space. *)
Theorem removeAnsi_plain_text (text : jsstring) :
  noEsc text = true -> removeAnsi text = trimStart text.
Proof. apply removeAnsi_noEsc. Qed.

(** An indented request line. *)
Lemma removeAnsi_plain_text_witness :
  noEsc (str "  GET /x" ++ [LF]) = true /\
  removeAnsi (str "  GET /x" ++ [LF]) = trimStart (str "  GET /x" ++ [LF]).
Proof.
  split; [reflexivity|].
  apply (removeAnsi_plain_text (str "  GET /x" ++ [LF])). reflexivity.
Defined.

(** X3: a text wrapped in two one-parameter colour sequences, as a
    16-colour style produces it, comes out without them. *)
Theorem removeAnsi_unwraps (a b s t : jsstring) :
  forallb isDigit a = true -> forallb isDigit b = true ->
  noEsc s = true -> noEsc t = true ->
  removeAnsi ([ESC; 91] ++ a ++ [109] ++ s ++ [ESC; 91] ++ b ++ [109] ++ t)
  = trimStart (s ++ t).
Proof. apply removeAnsi_wrapped. Qed.

(** The default label of [info] before a message. *)
Lemma removeAnsi_unwraps_witness :
  removeAnsi ([ESC; 91] ++ str "42" ++ [109] ++ str " INFO " ++
              [ESC; 91] ++ str "49" ++ [109] ++ str " up")
  = trimStart (str " INFO " ++ str " up").
Proof.
  apply (removeAnsi_unwraps (str "42") (str "49") (str " INFO ") (str " up"));
    reflexivity.
Defined.

(** ** [log] on a named file *)

(** X4: a blank message is not ignored by [log], but nothing of it
    reaches a named file: the text appended is empty. *)
Theorem log_blank_to_file
    (self : Logestic) (d : BunFile) (p msg : jsstring) :
  dest self = Some d -> name d = Some p -> p <> [] ->
  msg <> [] -> isBlank msg = true ->
  log self msg = Resolved [AppendFile p []].
Proof.
  intros Hd Hn Hp Hm Hb. rewrite log_cases, Hd, Hn.
  destruct msg as [|c r]; [congruence|]. destruct p as [|x xs]; [congruence|].
  assert (Hall : forallb isWhiteSpace ((c :: r) ++ [LF]) = true).
  { rewrite forallb_app. unfold isBlank in Hb. now rewrite Hb. }
  rewrite removeAnsi_noEsc by now apply blank_noEsc.
  unfold trimStart. now rewrite (dropWhile_nil _ _ Hall).
Qed.

(** Three spaces, to app.log. *)
Lemma log_blank_to_file_witness :
  log (loggerTo logFile) (str "   ") = Resolved [AppendFile (str "app.log") []].
Proof.
  apply (log_blank_to_file (loggerTo logFile) logFile (str "app.log")
           (str "   ")); try reflexivity; discriminate.
Defined.

(** ** The constructor and the destination *)

(** X5: the constructor throws for no other reason than a destination
    that is standard input. *)
Theorem constructor_throws_only_for_stdin
    (options : LogesticOptions.t) (e : Error) :
  constructor options = Threw e ->
  e = CannotLogToStdin /\
  exists d, LogesticOptions.dest options = Some d /\ same d Bun_stdin = true.
Proof.
  unfold constructor, setDest.
  destruct (LogesticOptions.dest options) as [d|]; simpl.
  - destruct (same d Bun_stdin) eqn:E.
    + intros [= <-]. eauto.
    + destruct (same d Bun_stdout || same d Bun_stderr); discriminate.
  - discriminate.
Qed.

(** Standard input as the destination. *)
Lemma constructor_throws_only_for_stdin_witness :
  constructor (optionsTo Bun_stdin) = Threw CannotLogToStdin /\
  exists d,
    LogesticOptions.dest (optionsTo Bun_stdin) = Some d /\
    same d Bun_stdin = true.
Proof.
  split; [reflexivity|].
  apply (constructor_throws_only_for_stdin (optionsTo Bun_stdin)
           CannotLogToStdin eq_refl).
Defined.

(** X6: with no destination, standard output or standard error, the
    instance is ready when the constructor returns: no file is pending,
    and every non-empty message is written to that stream with one
    newline, colour sequences included. *)
Theorem constructor_stream_ready
    (options : LogesticOptions.t) (d : BunFile) :
  (LogesticOptions.dest options = None /\ d = Bun_stdout) \/
  (LogesticOptions.dest options = Some d /\
   (d = Bun_stdout \/ d = Bun_stderr)) ->
  exists self,
    constructor options = Created self None /\
    dest self = Some d /\
    forall msg, msg <> [] ->
      log self msg = Resolved [BunWrite d (msg ++ [LF])].
Proof.
  intros H. unfold constructor.
  assert (Hd : default Bun_stdout (LogesticOptions.dest options) = d).
  { destruct H as [[-> ->]|[-> _]]; reflexivity. }
  assert (Hs : d = Bun_stdout \/ d = Bun_stderr)
    by (destruct H as [[_ ->]|[_ H]]; auto).
  rewrite Hd. clear H Hd.
  destruct Hs as [-> | ->]; (eexists; split; [reflexivity|]);
    (split; [reflexivity|]); intros msg Hm; rewrite log_cases;
    now destruct msg.
Qed.

(** Standard error. *)
Lemma constructor_stream_ready_witness :
  exists self,
    constructor (optionsTo Bun_stderr) = Created self None /\
    dest self = Some Bun_stderr /\
    forall msg, msg <> [] ->
      log self msg = Resolved [BunWrite Bun_stderr (msg ++ [LF])].
Proof.
  apply (constructor_stream_ready (optionsTo Bun_stderr) Bun_stderr).
  right. split; [reflexivity | right; reflexivity].
Defined.

(** X7: with a custom file the constructor returns before [dest] is
    assigned; until the pending promise settles, every non-empty message
    is lost: [log] rejects with a type error and writes nothing. *)
Theorem constructor_file_pending
    (options : LogesticOptions.t) (d : BunFile) :
  LogesticOptions.dest options = Some d ->
  same d Bun_stdin = false -> same d Bun_stdout = false ->
  same d Bun_stderr = false ->
  exists self,
    constructor options = Created self (Some d) /\
    dest self = None /\
    forall msg, msg <> [] -> log self msg = Rejected TypeError.
Proof.
  intros Hd H0 H1 H2. unfold constructor, setDest. rewrite Hd. simpl.
  rewrite H0, H1, H2. simpl. eexists. split; [reflexivity|].
  split; [reflexivity|]. intros msg Hm. rewrite log_cases.
  now destruct msg.
Qed.

(** The file app.log. *)
Lemma constructor_file_pending_witness :
  exists self,
    constructor (optionsTo logFile) = Created self (Some logFile) /\
    dest self = None /\
    forall msg, msg <> [] -> log self msg = Rejected TypeError.
Proof.
  apply (constructor_file_pending (optionsTo logFile) logFile);
    reflexivity.
Defined.

(** X8: when the pending promise settles, an existing file is left
    untouched and a missing one is created by writing the empty string;
    from then on every non-empty message is appended to the file, after
    [removeAnsi]. *)
Theorem settle_then_log
    (fileExists : bool) (self : Logestic) (d : BunFile) (p : jsstring) :
  name d = Some p -> p <> [] ->
  let self' := fst (settle fileExists self d) in
  snd (settle fileExists self d) =
    (if fileExists then [] else [BunWrite d []]) /\
  requestedAttrs self' = requestedAttrs self /\
  forall msg, msg <> [] ->
    log self' msg = Resolved [AppendFile p (removeAnsi (msg ++ [LF]))].
Proof.
  intros Hn Hp self'. split; [reflexivity|]. split; [reflexivity|].
  intros msg Hm. rewrite log_cases. subst self'.
  unfold settle, with_dest. cbn [fst dest]. rewrite Hn.
  destruct msg as [|c r]; [congruence|]. now destruct p.
Qed.

(** The file app.log, already there. *)
Lemma settle_then_log_witness :
  let self' := fst (settle true (loggerTo Bun_stdout) logFile) in
  snd (settle true (loggerTo Bun_stdout) logFile) = [] /\
  requestedAttrs self' = [] /\
  forall msg, msg <> [] ->
    log self' msg =
    Resolved [AppendFile (str "app.log") (removeAnsi (msg ++ [LF]))].
Proof.
  apply (settle_then_log true (loggerTo Bun_stdout) logFile (str "app.log"));
    [reflexivity | discriminate].
Defined.

(** ** More on [buildAttrs] *)

(** Apart from [time] and [duration], what an iteration stores under its
    key depends on the context alone. *)
Lemma buildStep_own_value
    StatusMap clock clock' ctx T0 T0' st st' k :
  k <> Key.time -> k <> Key.duration ->
  (k = Key.status -> status_falsy (set_status ctx) = false) ->
  attrs (buildStep StatusMap clock ctx T0 st k) !! k =
  attrs (buildStep StatusMap clock' ctx T0' st' k) !! k.
Proof.
  intros Ht Hd Hs. destruct k; try congruence; simpl;
    rewrite ?(Hs eq_refl); simpl; now rewrite !lookup_insert_eq.
Qed.

(** X9: requesting more attributes with [use] adds to the attribute set:
    the keys built from the longer list are those built from the old list
    together with those built from the added keys. *)
Theorem use_adds_keys
    (StatusMap : jsstring -> value) (clock : Clock)
    (ctx : Context) (self : Logestic) (L : list Key.t) (T0 : Z) :
  dom (buildAttrs StatusMap clock ctx (requestedAttrs (use self L)) T0) =
  dom (buildAttrs StatusMap clock ctx (requestedAttrs self) T0) ∪
  dom (buildAttrs StatusMap clock ctx L T0).
Proof.
  apply set_eq. intros k. rewrite elem_of_union. unfold buildAttrs.
  rewrite !buildLoop_dom. simpl. rewrite dom_empty_L, elem_of_app.
  pose proof (not_elem_of_empty (C := gset Key.t) k). tauto.
Qed.

(** X10: apart from [time] and [duration], the value stored under a
    requested key depends on the request context only: not on the other
    requested keys, their order or repetition, the clocks or the start
    time. *)
Theorem buildAttrs_value_by_context
    (StatusMap : jsstring -> value) (clock clock' : Clock)
    (ctx : Context) (L L' : list Key.t) (T0 T0' : Z) (k : Key.t) :
  k <> Key.time -> k <> Key.duration -> k ∈ L -> k ∈ L' ->
  buildAttrs StatusMap clock ctx L T0 !! k =
  buildAttrs StatusMap clock' ctx L' T0' !! k.
Proof.
  intros Ht Hd HL HL'.
  destruct (decide (k = Key.status /\ status_falsy (set_status ctx) = true))
    as [[-> Hf]|Hn].
  - transitivity (@None value); [|symmetry];
      apply not_elem_of_dom; unfold buildAttrs; rewrite buildLoop_dom;
      simpl; rewrite dom_empty_L; intros [H|[_ H]];
      try (now apply not_elem_of_empty in H);
      specialize (H eq_refl); congruence.
  - unfold buildAttrs.
    destruct (buildLoop_last StatusMap clock ctx T0 L
                {| attrs := ∅; hrReads := 0; dateReads := 0 |} k HL)
      as [st ->].
    destruct (buildLoop_last StatusMap clock' ctx T0' L'
                {| attrs := ∅; hrReads := 0; dateReads := 0 |} k HL')
      as [st' ->].
    apply buildStep_own_value; auto. intros ->.
    destruct (status_falsy (set_status ctx)); [exfalso; auto | reflexivity].
Qed.

(** The path, requested alone or last among repeated keys. *)
Lemma buildAttrs_value_by_context_witness :
  buildAttrs StatusMapSample clockSample
    (contextSample [] status_unset) [Key.path] 0 !! Key.path =
  buildAttrs StatusMapSample clockSample
    (contextSample [] status_unset)
    [Key.duration; Key.path; Key.ip; Key.path] 7 !! Key.path.
Proof.
  apply (buildAttrs_value_by_context StatusMapSample clockSample clockSample
           (contextSample [] status_unset) [Key.path]
           [Key.duration; Key.path; Key.ip; Key.path] 0 7 Key.path);
    try discriminate; repeat constructor.
Defined.

Lemma buildAttrs_last StatusMap clock ctx L T0 k :
  k ∈ L ->
  exists st,
    buildAttrs StatusMap clock ctx L T0 !! k =
    attrs (buildStep StatusMap clock ctx T0 st k) !! k.
Proof. intros H. unfold buildAttrs. now apply buildLoop_last. Qed.

(** X11: [method], [path], [body] and [query] are passed through from
    the context as they are. *)
Theorem buildAttrs_pass_through
    (StatusMap : jsstring -> value) (clock : Clock)
    (ctx : Context) (L : list Key.t) (T0 : Z) :
  let result := buildAttrs StatusMap clock ctx L T0 in
  (Key.method ∈ L ->
   result !! Key.method = Some (Str (method (request ctx)))) /\
  (Key.path ∈ L -> result !! Key.path = Some (Str (path ctx))) /\
  (Key.body ∈ L -> result !! Key.body = Some (body ctx)) /\
  (Key.query ∈ L -> result !! Key.query = Some (query ctx)).
Proof.
  repeat split; intros H;
    destruct (buildAttrs_last StatusMap clock ctx L T0 _ H) as [st ->];
    simpl; apply lookup_insert_eq.
Qed.

(** A GET request for /x. *)
Lemma buildAttrs_pass_through_witness :
  let result :=
    buildAttrs StatusMapSample clockSample (contextSample [] status_unset)
      [Key.query; Key.method; Key.body; Key.path] 0 in
  result !! Key.method = Some (Str (str "GET")) /\
  result !! Key.path = Some (Str (str "/x")) /\
  result !! Key.body = Some Undefined /\
  result !! Key.query = Some (Obj 0).
Proof.
  destruct (buildAttrs_pass_through StatusMapSample clockSample
              (contextSample [] status_unset)
              [Key.query; Key.method; Key.body; Key.path] 0)
    as (H1 & H2 & H3 & H4).
  intros result.
  split; [apply H1|split; [apply H2|split; [apply H3|apply H4]]];
    repeat constructor.
Defined.

(** X12: a truthy numeric status is stored as it is; a status given by
    a non-empty name is stored as whatever [StatusMap[name]] is, so the
    [status] key is present even when that is undefined. *)
Theorem buildAttrs_status_value
    (StatusMap : jsstring -> value) (clock : Clock)
    (ctx : Context) (L : list Key.t) (T0 : Z) :
  Key.status ∈ L ->
  let result := buildAttrs StatusMap clock ctx L T0 !! Key.status in
  (forall n, set_status ctx = status_number n -> number_falsy n = false ->
     result = Some (Num n)) /\
  (forall s, set_status ctx = status_name s -> s <> [] ->
     result = Some (StatusMap s)).
Proof.
  intros H result. subst result.
  destruct (buildAttrs_last StatusMap clock ctx L T0 _ H) as [st ->].
  split.
  - intros n Hs Hn. simpl. rewrite Hs. simpl. rewrite Hn.
    apply lookup_insert_eq.
  - intros s Hs Hne. simpl. rewrite Hs. simpl.
    destruct s; [congruence|]. simpl. apply lookup_insert_eq.
Qed.

(** The status named Not Found, a name outside the table, and a name
    every object inherits. *)
Lemma buildAttrs_status_value_witness :
  buildAttrs StatusMapSample clockSample
    (contextSample [] (status_name (str "Not Found"))) [Key.status] 0
    !! Key.status = Some (Num (Decimal false 404 0)) /\
  buildAttrs StatusMapSample clockSample
    (contextSample [] (status_name (str "Teapot"))) [Key.status] 0
    !! Key.status = Some Undefined /\
  buildAttrs StatusMapSample clockSample
    (contextSample [] (status_name (str "constructor"))) [Key.status] 0
    !! Key.status = Some (Obj 1).
Proof.
  pose proof (fun name =>
    proj2 (buildAttrs_status_value StatusMapSample clockSample
             (contextSample [] (status_name name)) [Key.status] 0
             ltac:(constructor)) name eq_refl) as H.
  split; [|split].
  - apply (H (str "Not Found")). discriminate.
  - apply (H (str "Teapot")). discriminate.
  - apply (H (str "constructor")). discriminate.
Defined.

(** X13: for [ip], [referer] and [userAgent], a header that is present
    and not empty is stored as it is. *)
Theorem buildAttrs_header_verbatim
    (StatusMap : jsstring -> value) (clock : Clock)
    (ctx : Context) (L : list Key.t) (T0 : Z)
    (k : Key.t) (name placeholder : string) (v : jsstring) :
  Sentinel k name placeholder ->
  k ∈ L ->
  header (request ctx) name = Some v -> v <> [] ->
  buildAttrs StatusMap clock ctx L T0 !! k = Some (Str v).
Proof.
  intros HS HL Hh Hv. destruct v as [|c r]; [congruence|].
  destruct HS.
  - rewrite (buildAttrs_ip _ _ _ _ _ HL). now rewrite Hh.
  - rewrite (buildAttrs_referer _ _ _ _ _ HL). now rewrite Hh.
  - rewrite (buildAttrs_userAgent _ _ _ _ _ HL). now rewrite Hh.
Qed.

(** A forwarded address. *)
Lemma buildAttrs_header_verbatim_witness :
  buildAttrs StatusMapSample clockSample
    (contextSample [(str "X-Forwarded-For", str "10.0.0.7")] status_unset)
    [Key.ip] 0 !! Key.ip = Some (Str (str "10.0.0.7")).
Proof.
  apply (buildAttrs_header_verbatim StatusMapSample clockSample
           (contextSample [(str "X-Forwarded-For", str "10.0.0.7")]
              status_unset)
           [Key.ip] 0 Key.ip "x-forwarded-for" "<ip?>" (str "10.0.0.7"));
    [constructor | constructor | reflexivity | discriminate].
Defined.

(** ** [contentLength] on well-formed and on blank headers *)

Lemma parseNonDecimal_digits ds :
  forallb isDigit ds = true -> parseNonDecimal ds = None.
Proof.
  intros H. unfold parseNonDecimal.
  destruct ds as [|z [|x r]]; try reflexivity.
  destruct (z =? 48); simpl; [|reflexivity].
  simpl in H. apply andb_true_iff in H as [_ H].
  apply andb_true_iff in H as [Hx _]. unfold isDigit in Hx. unbool.
  replace (x =? 98) with false by (symmetry; apply N.eqb_neq; lia).
  replace (x =? 66) with false by (symmetry; apply N.eqb_neq; lia).
  replace (x =? 111) with false by (symmetry; apply N.eqb_neq; lia).
  replace (x =? 79) with false by (symmetry; apply N.eqb_neq; lia).
  replace (x =? 120) with false by (symmetry; apply N.eqb_neq; lia).
  replace (x =? 88) with false by (symmetry; apply N.eqb_neq; lia).
  reflexivity.
Qed.

Lemma parseStrUnsignedDecimal_digits neg ds :
  Digits isDigit ds ->
  parseStrUnsignedDecimal neg ds = Some (Decimal neg (digitsVal 10 ds) 0).
Proof.
  intros Hd. pose proof Hd as [_ Hall].
  assert (H : parseStrUnsignedDecimal neg (ds ++ []) =
              Some (Decimal neg (digitsVal 10 ds) 0)).
  { unfold parseStrUnsignedDecimal.
    rewrite (digits_not_Infinity _ _ Hd). cbv zeta.
    rewrite (dropWhile_run isDigit ds []), (takeWhile_run isDigit ds []);
      try exact Hall; try exact I.
    now rewrite (Digits_not_falsy _ _ Hd). }
  now rewrite app_nil_r in H.
Qed.

(** A run of decimal digits has the value it denotes. *)
Lemma StringToMV_digits ds :
  Digits isDigit ds ->
  StringToMV ds = Decimal false (digitsVal 10 ds) 0.
Proof.
  intros Hd. pose proof Hd as [Hne Hall]. unfold StringToMV.
  assert (Ht : trim ds = ds).
  { rewrite <- (app_nil_r ds) at 1.
    apply (trim_visible [] ds []); try reflexivity.
    now apply digits_visible. }
  rewrite Ht, (Digits_not_falsy _ _ Hd), (parseNonDecimal_digits _ Hall).
  unfold parseStrDecimal. destruct ds as [|c r] eqn:E; [congruence|].
  rewrite <- E in *. simpl in Hall. rewrite E in Hall. simpl in Hall.
  apply andb_true_iff in Hall as [Hc _]. unfold isDigit in Hc. unbool.
  replace (c =? 43) with false by (symmetry; apply N.eqb_neq; lia).
  replace (c =? 45) with false by (symmetry; apply N.eqb_neq; lia).
  now rewrite (parseStrUnsignedDecimal_digits false ds Hd).
Qed.

Lemma roundHalfEven_1 n : roundHalfEven n 1 = n.
Proof.
  unfold roundHalfEven. rewrite Z.div_1_r, Z.mod_1_r. reflexivity.
Qed.

Lemma stripZeros_pow10 j d :
  stripZeros j (d * 10 ^ Z.of_nat j)%Z = (d, 0%Z).
Proof.
  revert d. induction j as [|j IH]; intros d.
  - simpl. now rewrite Z.mul_1_r.
  - rewrite Nat2Z.inj_succ, Z.pow_succ_r by lia.
    replace (d * (10 * 10 ^ Z.of_nat j))%Z
      with ((d * 10 ^ Z.of_nat j) * 10)%Z by ring.
    cbn [stripZeros]. rewrite Z.mod_mul by lia.
    rewrite Z.eqb_refl, Z.div_mul by lia. apply IH.
Qed.

(** An integer below [2^53] is a double: rounding returns it. *)
Lemma RoundMVResult_small neg n :
  n < 2 ^ 53 -> RoundMVResult (Decimal neg n 0) = Decimal neg n 0.
Proof.
  intros Hn. unfold RoundMVResult.
  destruct (Z.of_N n =? 0)%Z eqn:E0.
  { apply Z.eqb_eq in E0. now replace n with 0 by lia. }
  apply Z.eqb_neq in E0.
  assert (Hd : (0 < Z.of_N n < 2 ^ 53)%Z).
  { split; [lia|]. change (2 ^ 53)%Z with (Z.of_N (2 ^ 53)). lia. }
  set (d := Z.of_N n) in *.
  change (0 <=? 0)%Z with true. cbv iota.
  rewrite Z.pow_0_r, Z.mul_1_r.
  assert (Hg : (0 <= Z.log2 d < 53)%Z).
  { split; [apply Z.log2_nonneg|]. apply Z.log2_lt_pow2; lia. }
  assert (Hfl : floorLog2 d 1 = Z.log2 d).
  { unfold floorLog2. change (Z.log2 1) with 0%Z. rewrite Z.sub_0_r.
    replace (0 <=? Z.log2 d)%Z with true by (symmetry; apply Z.leb_le; lia).
    rewrite Z.mul_1_l.
    destruct (Z.log2_spec d ltac:(lia)) as [Hlo _].
    now replace (2 ^ Z.log2 d <=? d)%Z with true
      by (symmetry; apply Z.leb_le; exact Hlo). }
  rewrite Hfl, Z.max_l by lia.
  assert (Hbig : (2 ^ 53 < 2 ^ 1024)%Z) by (apply Z.pow_lt_mono_r; lia).
  destruct (0 <=? Z.log2 d - 52)%Z eqn:Ek.
  - apply Z.leb_le in Ek.
    replace (Z.log2 d - 52)%Z with 0%Z by lia.
    rewrite Z.pow_0_r, Z.mul_1_r, roundHalfEven_1.
    replace (d =? 0)%Z with false by (symmetry; apply Z.eqb_neq; lia).
    rewrite Z.mul_1_r.
    replace (2 ^ 1024 <=? d)%Z with false by (symmetry; apply Z.leb_gt; lia).
    subst d. now rewrite N2Z.id.
  - apply Z.leb_gt in Ek. rewrite roundHalfEven_1.
    set (j := (- (Z.log2 d - 52))%Z) in *.
    assert (Hj : (0 < j)%Z) by (subst j; lia).
    assert (Hp : (0 < 2 ^ j)%Z) by (apply Z.pow_pos_nonneg; lia).
    replace (d * 2 ^ j =? 0)%Z with false by (symmetry; apply Z.eqb_neq; nia).
    replace (d * 2 ^ j * 5 ^ j)%Z with (d * 10 ^ Z.of_nat (Z.to_nat j))%Z.
    + rewrite stripZeros_pow10. simpl fst. simpl snd. subst d.
      now rewrite N2Z.id.
    + rewrite Z2Nat.id by lia. change 10%Z with (2 * 5)%Z.
      rewrite Z.pow_mul_l. ring.
Qed.

(** X14: a content-length header made of decimal digits whose value is
    below [2^53] gives [contentLength] exactly that integer. *)
Theorem buildAttrs_contentLength_digits
    (StatusMap : jsstring -> value) (clock : Clock)
    (ctx : Context) (L : list Key.t) (T0 : Z) (ds : jsstring) :
  Key.contentLength ∈ L ->
  header (request ctx) "content-length" = Some ds ->
  Digits isDigit ds ->
  digitsVal 10 ds < 2 ^ 53 ->
  buildAttrs StatusMap clock ctx L T0 !! Key.contentLength =
  Some (Num (Decimal false (digitsVal 10 ds) 0)).
Proof.
  intros HL Hh Hd Hv. rewrite (buildAttrs_contentLength _ _ _ _ _ HL), Hh.
  simpl. unfold StringToNumber.
  now rewrite StringToMV_digits, RoundMVResult_small.
Qed.

(** A body of 348 bytes. *)
Lemma buildAttrs_contentLength_digits_witness :
  buildAttrs StatusMapSample clockSample
    (contextSample [(str "Content-Length", str "348")] status_unset)
    [Key.contentLength] 0 !! Key.contentLength =
  Some (Num (Decimal false 348 0)).
Proof.
  apply (buildAttrs_contentLength_digits StatusMapSample clockSample
           (contextSample [(str "Content-Length", str "348")] status_unset)
           [Key.contentLength] 0 (str "348"));
    [constructor | reflexivity | split; [discriminate | reflexivity]
    | reflexivity].
Defined.

(** X15: a content-length header that is empty or holds white space
    only gives [contentLength] the value 0, as an absent header does. *)
Theorem buildAttrs_contentLength_blank
    (StatusMap : jsstring -> value) (clock : Clock)
    (ctx : Context) (L : list Key.t) (T0 : Z) (ws : jsstring) :
  Key.contentLength ∈ L ->
  header (request ctx) "content-length" = Some ws ->
  isBlank ws = true ->
  buildAttrs StatusMap clock ctx L T0 !! Key.contentLength =
  Some (Num zero).
Proof.
  intros HL Hh Hb. rewrite (buildAttrs_contentLength _ _ _ _ _ HL), Hh.
  simpl. unfold StringToNumber, StringToMV.
  replace (trim ws) with (@nil N); [reflexivity|].
  symmetry. rewrite <- (app_nil_r ws).
  now apply (trim_visible ws [] []).
Qed.

(** An empty content-length header. *)
Lemma buildAttrs_contentLength_blank_witness :
  buildAttrs StatusMapSample clockSample
    (contextSample [(str "Content-Length", [])] status_unset)
    [Key.contentLength] 0 !! Key.contentLength = Some (Num zero).
Proof.
  apply (buildAttrs_contentLength_blank StatusMapSample clockSample
           (contextSample [(str "Content-Length", [])] status_unset)
           [Key.contentLength] 0 []);
    [constructor | reflexivity | reflexivity].
Defined.

(** ** [time] *)

Section TimeFacts.

Context (StatusMap : jsstring -> value) (clock : Clock).
Context (ctx : Context) (timeStart : Z).

Local Abbreviation step := (buildStep StatusMap clock ctx timeStart).
Local Abbreviation loop l := (buildLoop StatusMap clock ctx l timeStart).

(** The wall clock is read once per [time] key. *)
Lemma buildLoop_dateReads l st :
  dateReads (loop l st) =
  (dateReads st + count_occ Key.eq_dec l Key.time)%nat.
Proof.
  induction l as [|k l IH] using rev_ind.
  - simpl. lia.
  - rewrite buildLoop_snoc, count_occ_app.
    destruct k; simpl; try destruct (status_falsy _); simpl; rewrite IH;
      lia.
Qed.

Lemma buildLoop_time l st :
  Key.time ∈ l ->
  attrs (loop l st) !! Key.time =
  Some (Date (dateNow clock
                (dateReads st + pred (count_occ Key.eq_dec l Key.time)))).
Proof.
  induction l as [|k l IH] using rev_ind; intros Hk.
  - now apply elem_of_nil in Hk.
  - rewrite buildLoop_snoc, count_occ_app.
    destruct (decide (k = Key.time)) as [->|Hne].
    + simpl. rewrite lookup_insert_eq, buildLoop_dateReads.
      now rewrite Nat.add_1_r.
    + rewrite buildStep_lookup_ne by exact Hne.
      apply elem_of_app in Hk as [Hk|Hk];
        [|apply list_elem_of_singleton in Hk; congruence].
      rewrite (IH Hk). simpl.
      destruct (Key.eq_dec k Key.time); [congruence|].
      now rewrite Nat.add_0_r.
Qed.

End TimeFacts.

(** X16: the wall clock is read anew at every [time] key of the list, and
    the value kept is the last reading, whatever else is requested. *)
Theorem buildAttrs_time_last_reading
    (StatusMap : jsstring -> value) (clock : Clock)
    (ctx : Context) (L : list Key.t) (T0 : Z) :
  Key.time ∈ L ->
  buildAttrs StatusMap clock ctx L T0 !! Key.time =
  Some (Date (dateNow clock (pred (count_occ Key.eq_dec L Key.time)))).
Proof.
  intros H. unfold buildAttrs.
  now rewrite (buildLoop_time _ _ _ _ _ _ H).
Qed.

(** [time] requested twice: the second reading is kept. *)
Lemma buildAttrs_time_last_reading_witness :
  buildAttrs StatusMapSample clockSample (contextSample [] status_unset)
    [Key.time; Key.duration; Key.time] 0 !! Key.time = Some (Date 1).
Proof.
  apply (buildAttrs_time_last_reading StatusMapSample clockSample
           (contextSample [] status_unset)
           [Key.time; Key.duration; Key.time] 0).
  constructor.
Defined.

(** ** Level labels in a file *)

Lemma noEsc_app l t : noEsc (l ++ t) = noEsc l && noEsc t.
Proof. apply forallb_app. Qed.

(** With a 16-colour default style, the labelled line reaches a file as
    the bare upper-case tag, two spaces and the message. *)
Lemma labelled_line_sanitised chalk self type msg :
  Basic16 chalk -> missing (logLevelColour self type) ->
  noEsc msg = true ->
  removeAnsi (withLevel chalk self type msg ++ [LF]) =
  toUpperCase (LogType_name type) ++ str "  " ++ msg ++ [LF].
Proof.
  intros (Hb & Hg & Hy & Hc & Hr) Hm Hmsg.
  assert (Ht : noEsc (str " " ++ msg ++ [LF]) = true)
    by (rewrite !noEsc_app, Hmsg; reflexivity).
  unfold withLevel, colourLogType.
  assert (Hstyle : forall style : jsstring -> jsstring, wraps style ->
            removeAnsi ((style (str " " ++ toUpperCase (LogType_name type)
                                  ++ str " ")
                         ++ str " " ++ msg) ++ [LF]) =
            toUpperCase (LogType_name type) ++ str "  " ++ msg ++ [LF]).
  { intros style (a & b & Ha & Hb' & Heq). rewrite Heq.
    set (s := str " " ++ toUpperCase (LogType_name type) ++ str " ").
    rewrite <- !app_assoc.
    rewrite (removeAnsi_wrapped a b s (str " " ++ msg ++ [LF]) Ha Hb');
      [|subst s; now destruct type|exact Ht].
    subst s. now destruct type. }
  destruct Hm as [-> | ->]; simpl str_falsy; cbv iota zeta;
    destruct type; now apply Hstyle.
Qed.

(** X17: with 16-colour default styles and no colour override, the four
    explicit methods append to a named file the bare upper-case tag, two
    spaces, the message and a newline, for every message without escape
    characters: the colour sequences and the space before the tag are
    gone. *)
Theorem explicit_file_lines
    (chalk : Chalk) (self : Logestic) (d : BunFile) (p msg : jsstring) :
  Basic16 chalk ->
  explicitLogging self = true -> showLevel self = true ->
  (forall type, missing (logLevelColour self type)) ->
  dest self = Some d -> name d = Some p -> p <> [] ->
  noEsc msg = true ->
  info chalk self msg = Resolved [AppendFile p (str "INFO  " ++ msg ++ [LF])] /\
  warn chalk self msg = Resolved [AppendFile p (str "WARN  " ++ msg ++ [LF])] /\
  debug chalk self msg =
    Resolved [AppendFile p (str "DEBUG  " ++ msg ++ [LF])] /\
  error chalk self msg =
    Resolved [AppendFile p (str "ERROR  " ++ msg ++ [LF])].
Proof.
  intros HB He Hs Hm Hd Hn Hp Hmsg.
  assert (Hlog : forall type,
            log self (withLevel chalk self type msg) =
            Resolved [AppendFile p
                        (toUpperCase (LogType_name type) ++ str "  " ++
                         msg ++ [LF])]).
  { intros type. rewrite log_cases, Hd, Hn.
    rewrite (labelled_line_sanitised chalk self type msg HB (Hm type) Hmsg).
    destruct (withLevel chalk self type msg) eqn:E.
    - unfold withLevel in E. apply app_eq_nil in E as [_ E]. discriminate E.
    - now destruct p. }
  unfold info, warn, debug, error. rewrite He, Hs. simpl negb. cbv iota zeta.
  rewrite !Hlog. repeat split.
Qed.

Lemma chalkSample16_Basic16 : Basic16 chalkSample16.
Proof.
  repeat split;
    [exists (str "44")|exists (str "42")|exists (str "43")
    |exists (str "46")|exists (str "41")];
    exists (str "49"); repeat split.
Qed.

(** The message up, to app.log, through the 16-colour styles. *)
Lemma explicit_file_lines_witness :
  info chalkSample16 (labelledLoggerTo logFile) (str "up") =
    Resolved [AppendFile (str "app.log") (str "INFO  up" ++ [LF])] /\
  warn chalkSample16 (labelledLoggerTo logFile) (str "up") =
    Resolved [AppendFile (str "app.log") (str "WARN  up" ++ [LF])] /\
  debug chalkSample16 (labelledLoggerTo logFile) (str "up") =
    Resolved [AppendFile (str "app.log") (str "DEBUG  up" ++ [LF])] /\
  error chalkSample16 (labelledLoggerTo logFile) (str "up") =
    Resolved [AppendFile (str "app.log") (str "ERROR  up" ++ [LF])].
Proof.
  apply (explicit_file_lines chalkSample16 (labelledLoggerTo logFile)
           logFile (str "app.log") (str "up"));
    try reflexivity.
  - exact chalkSample16_Basic16.
  - intros type. left. reflexivity.
  - discriminate.
Defined.

(** ** Every entry point writes at most once *)

Lemma tame_nil self : tame self (Resolved []).
Proof.
  split; [simpl; lia|]. intros e He. now apply elem_of_nil in He.
Qed.

Lemma log_tame self msg : tame self (log self msg).
Proof.
  rewrite log_cases. destruct msg as [|c r]; [apply tame_nil|].
  destruct (dest self) as [d|] eqn:Hd; [|exact Hd].
  destruct (name d) as [[|x xs]|] eqn:Hn;
    (split; [simpl; lia|]); intros e He;
    apply list_elem_of_singleton in He as ->; exists d; split; simpl; auto.
Qed.

(** X18: whatever the message, the callbacks and the settings, each of
    [log], [info], [warn], [debug], [error] and the three hooks of
    [format] issues at most one write, and only to the destination of the
    instance; it fails only while that destination is still
    unassigned. *)
Theorem entry_points_tame
    (chalk : Chalk) (StatusMap : jsstring -> value)
    (formatAttr : Callback) (self : Logestic) (clock : Clock)
    (ctx : Context) (req : Request) (err code : value) (T0 : Z)
    (msg : jsstring) :
  tame self (log self msg) /\
  tame self (info chalk self msg) /\
  tame self (warn chalk self msg) /\
  tame self (debug chalk self msg) /\
  tame self (error chalk self msg) /\
  tame self (snd (format_onRequest chalk formatAttr self clock req)) /\
  tame self
    (format_onAfterResponse chalk StatusMap formatAttr self clock ctx T0) /\
  tame self (format_onError chalk formatAttr self clock req err code).
Proof.
  assert (Hif : forall (b : bool) m,
            tame self (if b then Resolved [] else log self m))
    by (intros [] m; [apply tame_nil | apply log_tame]).
  split; [apply log_tame|]. do 4 (split; [apply Hif|]).
  split; [|split; [apply Hif | apply log_tame]].
  unfold format_onRequest. simpl snd.
  destruct (onRequest formatAttr); [apply log_tame | apply tame_nil].
Qed.

(** ** Level labels on a stream *)

Lemma startsWithAnsi_sequence a rest :
  forallb isDigit a = true ->
  startsWithAnsi ([ESC; 91] ++ a ++ [109] ++ rest) = true.
Proof.
  intros Ha.
  change ([ESC; 91] ++ a ++ [109] ++ rest) with (ESC :: 91 :: a ++ 109 :: rest).
  unfold startsWithAnsi. rewrite !N.eqb_refl. simpl andb.
  rewrite (dropWhile_run isParameterByte a (109 :: rest)).
  - reflexivity.
  - revert Ha. apply forallb_impl. intros c Hc.
    unfold isDigit in Hc. unfold isParameterByte. unbool.
    apply andb_true_iff. rewrite !N.leb_le. lia.
  - reflexivity.
Qed.

Lemma containsAnsi_head l : startsWithAnsi l = true -> containsAnsi l = true.
Proof.
  destruct l as [|c r]; [discriminate|]. intros H.
  change (containsAnsi (c :: r))
    with (startsWithAnsi (c :: r) || containsAnsi r).
  now rewrite H.
Qed.

Lemma labelled_line_coloured chalk self type msg :
  Basic16 chalk -> missing (logLevelColour self type) ->
  containsAnsi (withLevel chalk self type msg ++ [LF]) = true.
Proof.
  intros (Hb & Hg & Hy & Hc & Hr) Hm.
  unfold withLevel, colourLogType.
  assert (Hstyle : forall (style : jsstring -> jsstring) s, wraps style ->
            containsAnsi ((style s ++ str " " ++ msg) ++ [LF]) = true).
  { intros style s (a & b & Ha & _ & Heq). rewrite Heq.
    rewrite <- !app_assoc.
    now apply containsAnsi_head, startsWithAnsi_sequence. }
  destruct Hm as [-> | ->]; simpl str_falsy; cbv iota zeta;
    destruct type; now apply Hstyle.
Qed.

(** X19: with 16-colour default styles and no colour override, the four
    explicit methods write the labelled line to a destination without a
    name exactly as built, colour sequences included. *)
Theorem explicit_stream_lines
    (chalk : Chalk) (self : Logestic) (d : BunFile) (msg : jsstring) :
  Basic16 chalk ->
  explicitLogging self = true -> showLevel self = true ->
  (forall type, missing (logLevelColour self type)) ->
  dest self = Some d -> name d = None ->
  let line type := withLevel chalk self type msg ++ [LF] in
  info chalk self msg = Resolved [BunWrite d (line info_t)] /\
  warn chalk self msg = Resolved [BunWrite d (line warn_t)] /\
  debug chalk self msg = Resolved [BunWrite d (line debug_t)] /\
  error chalk self msg = Resolved [BunWrite d (line error_t)] /\
  forall type, containsAnsi (line type) = true.
Proof.
  intros HB He Hs Hm Hd Hn line.
  assert (Hlog : forall type,
            log self (withLevel chalk self type msg) =
            Resolved [BunWrite d (line type)]).
  { intros type. rewrite log_cases, Hd, Hn.
    destruct (withLevel chalk self type msg) eqn:E; [|subst line; simpl; now rewrite E].
    unfold withLevel in E. apply app_eq_nil in E as [_ E]. discriminate E. }
  unfold info, warn, debug, error. rewrite He, Hs. simpl negb. cbv iota zeta.
  rewrite !Hlog. repeat split.
  intros type. now apply labelled_line_coloured.
Qed.

(** The message up, to standard output, through the 16-colour styles. *)
Lemma explicit_stream_lines_witness :
  info chalkSample16 (labelledLoggerTo Bun_stdout) (str "up") =
    Resolved [BunWrite Bun_stdout
                ([ESC; 91] ++ str "42m INFO " ++ [ESC; 91] ++ str "49m up" ++
                 [LF])] /\
  containsAnsi
    (withLevel chalkSample16 (labelledLoggerTo Bun_stdout) info_t (str "up")
     ++ [LF]) = true.
Proof.
  destruct (explicit_stream_lines chalkSample16 (labelledLoggerTo Bun_stdout)
              Bun_stdout (str "up") chalkSample16_Basic16 eq_refl eq_refl
              (fun type => or_introl eq_refl) eq_refl eq_refl)
    as (H1 & _ & _ & _ & H5).
  split; [exact H1 | exact (H5 info_t)].
Defined.

(** ** The request-start time *)

(** X20: the start time stored by the request hook is the first reading
    of the high-resolution clock, with or without an [onRequest]
    callback; handed to the after-response hook of an instance that
    requests [duration], it makes the success callback receive the
    nanoseconds elapsed since that reading, divided by 1000 with
    truncation. *)
Theorem duration_since_request_hook
    (chalk : Chalk) (StatusMap : jsstring -> value)
    (formatAttr : Callback) (self : Logestic)
    (clockR clock : Clock) (ctx : Context) (req : Request) :
  httpLogging self = true ->
  Key.duration ∈ requestedAttrs self ->
  let T0 := fst (format_onRequest chalk formatAttr self clockR req) in
  let T1 :=
    hrtime clock
      (pred (count_occ Key.eq_dec (requestedAttrs self) Key.duration)) in
  exists attrs : Attrs,
    attrs !! Key.duration = Some (BigInt ((T1 - hrtime clockR 0) ÷ 1000)) /\
    format_onAfterResponse chalk StatusMap formatAttr self clock ctx T0 =
    log self
      (if showLevel self
       then withLevel chalk self http (onSuccess formatAttr attrs)
       else onSuccess formatAttr attrs).
Proof.
  intros Hh Hd T0 T1.
  exists (buildAttrs StatusMap clock ctx (requestedAttrs self) T0). split.
  - unfold buildAttrs. now rewrite (buildLoop_duration _ _ _ _ _ _ Hd).
  - unfold format_onAfterResponse. now rewrite Hh.
Qed.

(** A request served 3000 nanoseconds after it arrived. *)
Lemma duration_since_request_hook_witness :
  let self := use (loggerTo Bun_stdout) [Key.duration] in
  let late := {| hrtime := fun _ => 8000%Z; dateNow := fun _ => 0%Z |} in
  exists attrs : Attrs,
    attrs !! Key.duration = Some (BigInt 3) /\
    format_onAfterResponse chalkLevel0 StatusMapSample callbackSample self
      late (contextSample [] status_unset)
      (fst (format_onRequest chalkLevel0 callbackSample self clockSample
              (requestSample []))) =
    log self (onSuccess callbackSample attrs).
Proof.
  apply (duration_since_request_hook chalkLevel0 StatusMapSample
           callbackSample (use (loggerTo Bun_stdout) [Key.duration])
           clockSample
           {| hrtime := fun _ => 8000%Z; dateNow := fun _ => 0%Z |}
           (contextSample [] status_unset) (requestSample []));
    [reflexivity | constructor].
Defined.
